(** * JSON <-> Automerge binary converter: a shallow embedding

    The development follows [src/jsonAutomergeConverter.ts].  Runtime values
    of the host language are an inductive type ([JsValue]); the shape
    validator [isValidJsonObject] is a structural recursion over it; the
    conversion functions run in a small monad that threads the ambient
    world of the CRDT engine, records every engine call and propagates
    thrown exceptions.  The engine ([A.from], [A.save], [A.load]) and the
    document repository are interfaces: what holds of the converter holds
    against their contract, for every implementation; two small engines
    run the examples. *)

From Stdlib Require Import List String Ascii Bool Arith ZArith Lia.
From Stdlib Require Import Permutation.
From Stdlib Require Import Strings.Byte DecimalString.
From Stdlib Require Import Floats Uint63.
Import ListNotations.
Open Scope string_scope.
Open Scope list_scope.

#[local] Set Warnings "-register-all".

(** ** Runtime values *)

(** Constructor functions an object's prototype can point back to. *)
Inductive Constructor : Type :=
| CObject
| CDate
| CRegExp
| CMap
| CSet
| CUint8Array
| CClass (name : string).

(** Function identity: functions are compared by reference. *)
Inductive FunRef : Type :=
| FCtor (c : Constructor)
| FClosure (id : nat).

(** The prototype of an object: that of a built-in or class constructor,
    or none ([Object.create(null)]).  An object made with another ordinary
    object as its prototype ([Object.create(o)]) is not among the values
    below. *)
Inductive Proto : Type :=
| ProtoNull
| ProtoOf (c : Constructor).

(** A runtime value.  Numbers are IEEE 754 doubles.  An object carries its
    prototype and its own enumerable string-keyed properties in insertion
    order. *)
Inductive JsValue : Type :=
| JUndefined
| JNull
| JBoolean (b : bool)
| JNumber (n : float)
| JString (s : string)
| JSymbol (description : string)
| JBigInt (z : Z)
| JFunction (f : FunRef)
| JArray (items : list JsValue)
| JObject (proto : Proto) (props : list (string * JsValue)).

(** The [typeof] operator. *)
Definition typeof (value : JsValue) : string :=
  match value with
  | JUndefined => "undefined"
  | JNull => "object"
  | JBoolean _ => "boolean"
  | JNumber _ => "number"
  | JString _ => "string"
  | JSymbol _ => "symbol"
  | JBigInt _ => "bigint"
  | JFunction _ => "function"
  | JArray _ => "object"
  | JObject _ _ => "object"
  end.

Definition isNull (value : JsValue) : bool :=
  match value with JNull => true | _ => false end.

Definition isUndefined (value : JsValue) : bool :=
  match value with JUndefined => true | _ => false end.

(** [value === Object]: only the [Object] function itself. *)
Definition isObjectFunction (value : JsValue) : bool :=
  match value with JFunction (FCtor CObject) => true | _ => false end.

Definition Array_isArray (value : JsValue) : bool :=
  match value with JArray _ => true | _ => false end.

(** Own property lookup: the first entry with the key. *)
Fixpoint lookupProp (key : string) (props : list (string * JsValue))
  : option JsValue :=
  match props with
  | [] => None
  | (k, v) :: rest => if String.eqb key k then Some v else lookupProp key rest
  end.

(** [value.constructor] on an object: an own property shadows the one the
    prototype provides ([X.prototype.constructor] is [X]). *)
Definition getConstructor (proto : Proto) (props : list (string * JsValue))
  : JsValue :=
  match lookupProp "constructor" props with
  | Some v => v
  | None =>
      match proto with
      | ProtoNull => JUndefined
      | ProtoOf c => JFunction (FCtor c)
      end
  end.

(** [Object.values(value)]. *)
Definition Object_values (props : list (string * JsValue)) : list JsValue :=
  map snd props.

(** ** The shape validator (lines 103-126) *)

Fixpoint isValidJsonObject (value : JsValue) : bool :=
  match value with
  | JNull | JUndefined => false
  | JBoolean _ | JNumber _ | JString _ => true
  | JArray items => forallb isValidJsonObject items
  | JObject proto props =>
      if negb (isObjectFunction (getConstructor proto props))
         && negb (isUndefined (getConstructor proto props))
      then false
      else forallb (fun kv => isValidJsonObject (snd kv)) props
  | JSymbol _ | JBigInt _ | JFunction _ => false
  end.

(** The operands of [every], in the order the source visits them; a value
    of any other kind has none. *)
Definition elementsOf (value : JsValue) : list JsValue :=
  match value with
  | JArray items => items
  | JObject _ props => Object_values props
  | _ => []
  end.

(** ** The validator on a heap

    The host language passes objects by reference, so a value can reach
    itself.  Here objects live in a heap and the recursion of the validator
    is bounded by a call depth: [None] means the call has not returned
    within that depth. *)

Definition Ref : Type := nat.

Inductive HeapValue : Type :=
| HUndefined
| HNull
| HBoolean (b : bool)
| HNumber (n : float)
| HString (s : string)
| HSymbol (description : string)
| HBigInt (z : Z)
| HFunction (f : FunRef)
| HRef (r : Ref).

Inductive HeapObject : Type :=
| HArrayObject (items : list HeapValue)
| HObject (proto : Proto) (props : list (string * HeapValue)).

Definition Heap : Type := Ref -> HeapObject.

Definition isUndefinedH (value : HeapValue) : bool :=
  match value with HUndefined => true | _ => false end.

Definition isObjectFunctionH (value : HeapValue) : bool :=
  match value with HFunction (FCtor CObject) => true | _ => false end.

Fixpoint lookupPropH (key : string) (props : list (string * HeapValue))
  : option HeapValue :=
  match props with
  | [] => None
  | (k, v) :: rest => if String.eqb key k then Some v else lookupPropH key rest
  end.

Definition getConstructorH (proto : Proto) (props : list (string * HeapValue))
  : HeapValue :=
  match lookupPropH "constructor" props with
  | Some v => v
  | None =>
      match proto with
      | ProtoNull => HUndefined
      | ProtoOf c => HFunction (FCtor c)
      end
  end.

(** [Array.prototype.every] with a callback that may not return: it stops
    at the first element the callback rejects. *)
Fixpoint everyOn (callback : HeapValue -> option bool) (items : list HeapValue)
  : option bool :=
  match items with
  | [] => Some true
  | item :: rest =>
      match callback item with
      | None => None
      | Some false => Some false
      | Some true => everyOn callback rest
      end
  end.

Fixpoint isValidJsonObjectOn (heap : Heap) (depth : nat) (value : HeapValue)
  : option bool :=
  match depth with
  | O => None
  | S d =>
      match value with
      | HNull | HUndefined => Some false
      | HBoolean _ | HNumber _ | HString _ => Some true
      | HRef r =>
          match heap r with
          | HArrayObject items => everyOn (isValidJsonObjectOn heap d) items
          | HObject proto props =>
              if negb (isObjectFunctionH (getConstructorH proto props))
                 && negb (isUndefinedH (getConstructorH proto props))
              then Some false
              else everyOn (isValidJsonObjectOn heap d) (map snd props)
          end
      | HSymbol _ | HBigInt _ | HFunction _ => Some false
      end
  end.

(** The finite tree a heap value denotes, when it denotes one. *)
Inductive Unfolds (heap : Heap) : HeapValue -> JsValue -> Prop :=
| U_undefined : Unfolds heap HUndefined JUndefined
| U_null : Unfolds heap HNull JNull
| U_boolean b : Unfolds heap (HBoolean b) (JBoolean b)
| U_number n : Unfolds heap (HNumber n) (JNumber n)
| U_string s : Unfolds heap (HString s) (JString s)
| U_symbol d : Unfolds heap (HSymbol d) (JSymbol d)
| U_bigint z : Unfolds heap (HBigInt z) (JBigInt z)
| U_function f : Unfolds heap (HFunction f) (JFunction f)
| U_array r items trees :
    heap r = HArrayObject items ->
    UnfoldsItems heap items trees ->
    Unfolds heap (HRef r) (JArray trees)
| U_object r proto props tprops :
    heap r = HObject proto props ->
    UnfoldsProps heap props tprops ->
    Unfolds heap (HRef r) (JObject proto tprops)
with UnfoldsItems (heap : Heap) : list HeapValue -> list JsValue -> Prop :=
| UI_nil : UnfoldsItems heap [] []
| UI_cons item tree items trees :
    Unfolds heap item tree ->
    UnfoldsItems heap items trees ->
    UnfoldsItems heap (item :: items) (tree :: trees)
with UnfoldsProps (heap : Heap)
  : list (string * HeapValue) -> list (string * JsValue) -> Prop :=
| UP_nil : UnfoldsProps heap [] []
| UP_cons key item tree props tprops :
    Unfolds heap item tree ->
    UnfoldsProps heap props tprops ->
    UnfoldsProps heap ((key, item) :: props) ((key, tree) :: tprops).

Scheme Unfolds_mutual := Minimality for Unfolds Sort Prop
  with UnfoldsItems_mutual := Minimality for UnfoldsItems Sort Prop
  with UnfoldsProps_mutual := Minimality for UnfoldsProps Sort Prop.
Combined Scheme Unfolds_mutind
  from Unfolds_mutual, UnfoldsItems_mutual, UnfoldsProps_mutual.

(** The values an object directly holds. *)
Inductive ChildOf (heap : Heap) : HeapValue -> HeapValue -> Prop :=
| Child_item r items item :
    heap r = HArrayObject items ->
    In item items ->
    ChildOf heap item (HRef r)
| Child_prop r proto props key item :
    heap r = HObject proto props ->
    In (key, item) props ->
    ChildOf heap item (HRef r).

(** Acyclic input: every chain of containment below the value is finite,
    so no object reaches itself. *)
Definition Acyclic (heap : Heap) (value : HeapValue) : Prop :=
  Acc (ChildOf heap) value.

(** The object of the test "handles circular references in input":
    [circular = { name: "test" }; circular.self = circular]. *)
Definition circularHeap : Heap :=
  fun _ => HObject (ProtoOf CObject)
             [("name", HString "test"); ("self", HRef 0)].

(** [{ name: "test", items: [1, true] }] laid out in a heap: the object at
    reference 0, the array at every other reference. *)
Definition sampleHeap : Heap :=
  fun r =>
    match r with
    | O => HObject (ProtoOf CObject)
             [("name", HString "test"); ("items", HRef 1)]
    | S _ => HArrayObject [HNumber 1%float; HBoolean true]
    end.

(** ** Conversion options (lines 8-13) *)

Record ConversionOptions : Type := {
  actor : option string;
  validateJson : option bool
}.

(** The default parameter value [{}]. *)
Definition emptyOptions : ConversionOptions :=
  {| actor := None; validateJson := None |}.

(** Truthiness of an optional boolean field. *)
Definition truthy (field : option bool) : bool :=
  match field with Some true => true | _ => false end.

(** ** Exceptions, engine calls and the conversion monad *)

(** What a call can throw.  The source throws plain [Error] objects; the
    constructors record where an exception arises: the validation gate of
    [jsonToAutomerge] (line 23), the engine while creating or saving a
    document, the engine while loading one, or the repository. *)
Inductive Exn : Type :=
| ValidationError (message : string)
| EncodeError (cause : string)
| DecodeError (cause : string)
| RepoError (cause : string).

(** The calls into the engine and the repository. *)
Inductive EngineCall : Type :=
| CallFrom (json : JsValue) (actorId : option string)
| CallSave
| CallLoad (binary : list byte) (actorId : option string)
| CallRepoNew
| CallImport (binary : list byte)
| CallIsReady.

(** One run of a computation: the engine calls it made, in order, the
    world it left behind, and what it returned or threw. *)
Record Run (W A : Type) : Type := {
  calls : list EngineCall;
  world : W;
  outcome : Exn + A
}.
Arguments calls {W A} _.
Arguments world {W A} _.
Arguments outcome {W A} _.

Definition M (W A : Type) : Type := W -> Run W A.

Definition ret {W A : Type} (a : A) : M W A :=
  fun w => {| calls := []; world := w; outcome := inr a |}.

Definition throw {W A : Type} (e : Exn) : M W A :=
  fun w => {| calls := []; world := w; outcome := inl e |}.

Definition bind {W A B : Type} (m : M W A) (k : A -> M W B) : M W B :=
  fun w =>
    let r := m w in
    match outcome r with
    | inl e => {| calls := calls r; world := world r; outcome := inl e |}
    | inr a =>
        let r' := k a (world r) in
        {| calls := calls r ++ calls r'; world := world r';
           outcome := outcome r' |}
    end.

(** [try { body } catch { handler }]. *)
Definition tryCatch {W A : Type} (body : M W A) (handler : Exn -> M W A)
  : M W A :=
  fun w =>
    let r := body w in
    match outcome r with
    | inl e =>
        let r' := handler e (world r) in
        {| calls := calls r ++ calls r'; world := world r';
           outcome := outcome r' |}
    | inr _ => r
    end.

Notation "x <- m ;; k" := (bind m (fun x => k))
  (at level 61, m at next level, right associativity).

(** One call into the engine: it moves the world and returns or throws. *)
Definition engineCall {W A : Type} (label : EngineCall)
  (wrap : string -> Exn) (op : W -> W * (string + A)) : M W A :=
  fun w =>
    let (w', r) := op w in
    {| calls := [label]; world := w';
       outcome := match r with
                  | inl cause => inl (wrap cause)
                  | inr a => inr a
                  end |}.

(** Two runs made the same engine calls and ended the same way. *)
Definition sameAnswer {W A : Type} (r1 r2 : Run W A) : Prop :=
  calls r1 = calls r2 /\ outcome r1 = outcome r2.

(** A computation whose answer does not depend on the world it starts in. *)
Definition blind {W A : Type} (m : M W A) : Prop :=
  forall w1 w2, sameAnswer (m w1) (m w2).

(** ** The CRDT engine and the repository as interfaces *)

(** [@automerge/automerge] as the converter uses it.  [World] is whatever
    the engine reads besides its arguments (clock, entropy for fresh actor
    ids); [materialize] reads a document as the plain value callers see. *)
Record Engine : Type := {
  World : Type;
  Doc : Type;
  A_from : JsValue -> option string -> World -> World * (string + Doc);
  A_save : Doc -> World -> World * (string + list byte);
  A_load : list byte -> option string -> World -> World * (string + Doc);
  materialize : Doc -> JsValue
}.

(** [@automerge/automerge-repo] as [testRepoCompatibility] uses it. *)
Record Repository (W : Type) : Type := {
  Repo : Type;
  DocHandle : Type;
  Repo_new : W -> W * (string + Repo);
  Repo_import : Repo -> list byte -> W -> W * (string + DocHandle);
  DocHandle_isReady : DocHandle -> W -> W * (string + bool)
}.
Arguments Repo {W} _.
Arguments DocHandle {W} _.
Arguments Repo_new {W} _ _.
Arguments Repo_import {W} _ _ _ _.
Arguments DocHandle_isReady {W} _ _ _.

(** ** The converter (lines 21-98) *)

Definition invalidJsonMessage : string :=
  "Invalid JSON object: must be a plain object or array".

Section Converter.
Variable E : Engine.

(** Lines 26-27: [A.save(A.from(json, actor))]. *)
Definition createAndSave (json : JsValue) (actorId : option string)
  : M (World E) (list byte) :=
  doc <- engineCall (CallFrom json actorId) EncodeError
           (A_from E json actorId) ;;
  engineCall CallSave EncodeError (A_save E doc).

(** Lines 21-28. *)
Definition jsonToAutomerge (json : JsValue) (options : ConversionOptions)
  : M (World E) (list byte) :=
  if truthy (validateJson options) && negb (isValidJsonObject json)
  then throw (ValidationError invalidJsonMessage)
  else createAndSave json (actor options).

(** Lines 36-39.  The document [A.load] returns is handed to the caller,
    who reads it as a plain value. *)
Definition automergeToJson (binary : list byte) (options : ConversionOptions)
  : M (World E) JsValue :=
  doc <- engineCall (CallLoad binary (actor options)) DecodeError
           (A_load E binary (actor options)) ;;
  ret (materialize E doc).

(** Lines 76-79. *)
Definition jsonToRepoCompatible (json : JsValue) (options : ConversionOptions)
  : M (World E) (list byte) :=
  jsonToAutomerge json options.

Variable R : Repository (World E).

(** Lines 86-98.  The promise it returns resolves to the boolean. *)
Definition testRepoCompatibility (binary : list byte) : M (World E) bool :=
  tryCatch
    (repo <- engineCall CallRepoNew RepoError (Repo_new R) ;;
     handle <- engineCall (CallImport binary) RepoError
                 (Repo_import R repo binary) ;;
     engineCall CallIsReady RepoError (DocHandle_isReady R handle))
    (fun _ => ret false).

End Converter.

(** [haystack.includes(needle)]. *)
Definition includes (haystack needle : string) : bool :=
  match String.index 0 needle haystack with
  | Some _ => true
  | None => false
  end.

(** ** Structural equality of values

    Deep; arrays are compared position by position, objects key by key
    whatever the order of their properties. *)

Inductive OptionRel {A : Type} (R : A -> A -> Prop)
  : option A -> option A -> Prop :=
| OptionRel_none : OptionRel R None None
| OptionRel_some a b : R a b -> OptionRel R (Some a) (Some b).

Inductive StructEq : JsValue -> JsValue -> Prop :=
| SE_same v : StructEq v v
| SE_array xs ys :
    Forall2 StructEq xs ys ->
    StructEq (JArray xs) (JArray ys)
| SE_object proto ps qs :
    (forall key, OptionRel StructEq (lookupProp key ps) (lookupProp key qs)) ->
    StructEq (JObject proto ps) (JObject proto qs).

(** ** JSON values

    The values of JSON among the runtime values: null, booleans, numbers,
    strings, arrays of JSON values, and object literals with distinct keys
    and JSON values. *)
Inductive IsJsonValue : JsValue -> Prop :=
| Json_null : IsJsonValue JNull
| Json_boolean b : IsJsonValue (JBoolean b)
| Json_number n : IsJsonValue (JNumber n)
| Json_string s : IsJsonValue (JString s)
| Json_array items :
    JsonItems items ->
    IsJsonValue (JArray items)
| Json_object props :
    NoDup (map fst props) ->
    JsonProps props ->
    IsJsonValue (JObject (ProtoOf CObject) props)
with JsonItems : list JsValue -> Prop :=
| JsonItems_nil : JsonItems []
| JsonItems_cons item items :
    IsJsonValue item -> JsonItems items -> JsonItems (item :: items)
with JsonProps : list (string * JsValue) -> Prop :=
| JsonProps_nil : JsonProps []
| JsonProps_cons key item props :
    IsJsonValue item -> JsonProps props -> JsonProps ((key, item) :: props).

(** ** The engine contract

    What the converter assumes of the engine (spec section 6 and 4.2). *)


(** Saving then loading, under the actor the document was created with,
    gives back a document with the same content. *)
Definition saveLoadInverse (E : Engine) : Prop :=
  forall json actorId w0 w1 doc w2 w3 binary,
    A_from E json actorId w0 = (w1, inr doc) ->
    A_save E doc w2 = (w3, inr binary) ->
    forall w4, exists w5 doc',
      A_load E binary actorId w4 = (w5, inr doc') /\
      StructEq (materialize E doc') (materialize E doc).

(** A fresh document is seeded with the JSON value it was created from. *)
Definition seededWith (E : Engine) : Prop :=
  forall json actorId w0 w1 doc,
    IsJsonValue json ->
    A_from E json actorId w0 = (w1, inr doc) ->
    StructEq (materialize E doc) json.

(** A saved document is never zero bytes long. *)
Definition saveNonEmpty (E : Engine) : Prop :=
  forall doc w0 w1 binary,
    A_save E doc w0 = (w1, inr binary) -> binary <> [].


(** ** A small engine

    An engine that stores checklists, [{ flags: [f1, ..., fn] }] where each
    flag is [true], [false] or [null], under an actor id.  It shows that
    the contract above can be met, and it is the engine the examples run
    on.  The byte format is a four-byte magic number, the length of the
    actor id, the actor id, then one byte per flag. *)

Module Mini.

Record MiniDoc : Type := {
  docActor : list byte;
  docFlags : list (option bool)
}.

Definition magic : list byte := [x85; x6f; x4a; x83].

Definition isHexDigit (c : ascii) : bool :=
  let n := nat_of_ascii c in
  (Nat.leb 48 n && Nat.leb n 57) || (Nat.leb 97 n && Nat.leb n 102).

Fixpoint allHex (s : string) : bool :=
  match s with
  | EmptyString => true
  | String c rest => isHexDigit c && allHex rest
  end.

(** An actor id is an even number of hex digits, at most 255 of them. *)
Definition validActor (s : string) : bool :=
  allHex s && Nat.even (String.length s) && Nat.leb (String.length s) 255.

(** The actor a document is attributed to: the one given, or a fresh one
    drawn from the world. *)
Definition resolveActor (actorId : option string) (w : nat)
  : nat * (string + list byte) :=
  match actorId with
  | Some s =>
      if validActor s then (w, inr (list_byte_of_string s))
      else (w, inl "invalid actor id")
  | None =>
      (S w, inr [match Byte.of_nat (w mod 256) with
                 | Some b => b
                 | None => x00
                 end])
  end.

Definition flagValue (flag : option bool) : JsValue :=
  match flag with
  | Some b => JBoolean b
  | None => JNull
  end.

Fixpoint asFlagList (items : list JsValue) : option (list (option bool)) :=
  match items with
  | [] => Some []
  | item :: rest =>
      match item, asFlagList rest with
      | JBoolean b, Some flags => Some (Some b :: flags)
      | JNull, Some flags => Some (None :: flags)
      | _, _ => None
      end
  end.

Definition asFlags (json : JsValue) : option (list (option bool)) :=
  match json with
  | JObject (ProtoOf CObject) [(key, JArray items)] =>
      if String.eqb key "flags" then asFlagList items else None
  | _ => None
  end.

Definition flagsValue (flags : list (option bool)) : JsValue :=
  JObject (ProtoOf CObject) [("flags", JArray (map flagValue flags))].

Definition from (json : JsValue) (actorId : option string) (w : nat)
  : nat * (string + MiniDoc) :=
  match resolveActor actorId w with
  | (w', inl cause) => (w', inl cause)
  | (w', inr actorBytes) =>
      match asFlags json with
      | Some flags =>
          (w', inr {| docActor := actorBytes; docFlags := flags |})
      | None => (w', inl "unsupported value")
      end
  end.

Definition byteOfFlag (flag : option bool) : byte :=
  match flag with
  | Some false => x00
  | Some true => x01
  | None => x02
  end.

Definition flagOfByte (b : byte) : option (option bool) :=
  match b with
  | x00 => Some (Some false)
  | x01 => Some (Some true)
  | x02 => Some None
  | _ => None
  end.

Fixpoint flagsOfBytes (bytes : list byte) : option (list (option bool)) :=
  match bytes with
  | [] => Some []
  | b :: rest =>
      match flagOfByte b, flagsOfBytes rest with
      | Some f, Some fs => Some (f :: fs)
      | _, _ => None
      end
  end.

Definition save (doc : MiniDoc) (w : nat) : nat * (string + list byte) :=
  match Byte.of_nat (List.length (docActor doc)) with
  | Some n =>
      (w, inr (magic ++ n :: docActor doc ++ map byteOfFlag (docFlags doc)))
  | None => (w, inl "actor id too long")
  end.

Definition byteEqb (a b : byte) : bool :=
  Nat.eqb (Byte.to_nat a) (Byte.to_nat b).

(** An actor id passed to [load] must be well formed. *)
Definition actorProblem (actorId : option string) : option string :=
  match actorId with
  | Some s => if validActor s then None else Some "invalid actor id"
  | None => None
  end.

Definition load (binary : list byte) (actorId : option string) (w : nat)
  : nat * (string + MiniDoc) :=
  match actorProblem actorId with
  | Some cause => (w, inl cause)
  | None =>
      match binary with
      | m1 :: m2 :: m3 :: m4 :: n :: rest =>
          if byteEqb m1 x85 && byteEqb m2 x6f && byteEqb m3 x4a
             && byteEqb m4 x83
          then
            if Nat.leb (Byte.to_nat n) (List.length rest)
            then
              match flagsOfBytes (skipn (Byte.to_nat n) rest) with
              | Some flags =>
                  (w, inr {| docActor := firstn (Byte.to_nat n) rest;
                             docFlags := flags |})
              | None => (w, inl "invalid flag")
              end
            else (w, inl "unexpected end of input")
          else (w, inl "invalid magic bytes")
      | _ => (w, inl "not enough input")
      end
  end.

Definition view (doc : MiniDoc) : JsValue := flagsValue (docFlags doc).

Definition engine : Engine :=
  {| World := nat;
     Doc := MiniDoc;
     A_from := from;
     A_save := save;
     A_load := load;
     materialize := view |}.

(** A repository over the same world: importing loads the document. *)
Definition repository : Repository nat :=
  {| Repo := unit;
     DocHandle := MiniDoc;
     Repo_new := fun w => (w, inr tt);
     Repo_import := fun _ binary w => load binary None w;
     DocHandle_isReady := fun _ w => (w, inr true) |}.

Definition sampleActor : string :=
  "0123456789abcdef0123456789abcdef0123456789abcdef0123456789abcdef".

Definition sampleOptions : ConversionOptions :=
  {| actor := Some sampleActor; validateJson := Some true |}.

(** [{ flags: [true, false, true] }]. *)
Definition sampleJson : JsValue :=
  flagsValue [Some true; Some false; Some true].

(** [{ flags: [true, null] }]. *)
Definition sampleWithNull : JsValue := flagsValue [Some true; None].

End Mini.

(** ** Values of the tests *)

(** An object literal [{ k1: v1, ... }]. *)
Definition objectLiteral (props : list (string * JsValue)) : JsValue :=
  JObject (ProtoOf CObject) props.



(** [TEST_FIXTURES.simple]. *)
Definition simpleFixture : JsValue :=
  objectLiteral
    [("string", JString "hello"); ("number", JNumber 42%float);
     ("boolean", JBoolean true); ("nullValue", JNull)].

(** The loop counter [i] as a number. *)
Definition numberOfNat (i : nat) : float :=
  PrimFloat.of_uint63 (Uint63.of_Z (Z.of_nat i)).




(** Nestings the validator accepts: booleans, numbers and strings,
    arrays of them, and objects built by a literal or by
    [Object.create(null)] that have no property named [constructor],
    nested to any depth.  Plain JSON that holds [null], or an object with
    a key named [constructor], is left out: the validator rejects it. *)
Inductive PlainNesting : JsValue -> Prop :=
| Plain_boolean b : PlainNesting (JBoolean b)
| Plain_number n : PlainNesting (JNumber n)
| Plain_string s : PlainNesting (JString s)
| Plain_array items :
    PlainItems items ->
    PlainNesting (JArray items)
| Plain_object proto props :
    proto = ProtoOf CObject \/ proto = ProtoNull ->
    lookupProp "constructor" props = None ->
    PlainProps props ->
    PlainNesting (JObject proto props)
with PlainItems : list JsValue -> Prop :=
| PlainItems_nil : PlainItems []
| PlainItems_cons item items :
    PlainNesting item -> PlainItems items -> PlainItems (item :: items)
with PlainProps : list (string * JsValue) -> Prop :=
| PlainProps_nil : PlainProps []
| PlainProps_cons key item props :
    PlainNesting item -> PlainProps props -> PlainProps ((key, item) :: props).

Scheme PlainNesting_mutual := Minimality for PlainNesting Sort Prop
  with PlainItems_mutual := Minimality for PlainItems Sort Prop
  with PlainProps_mutual := Minimality for PlainProps Sort Prop.
Combined Scheme PlainNesting_mutind
  from PlainNesting_mutual, PlainItems_mutual, PlainProps_mutual.


(** ** The host: files, standard streams, exceptions and exit

    The functions below run outside the converter: they read and write
    files ([Deno.readFile], [Deno.writeFile], ...), read standard input,
    print on the console and end the process.  The file system is an
    interface, like the engine. *)

(** What a call on the host can throw.  [error.message] is read by the
    handlers of the command line. *)
Inductive HostError : Type :=
| ConverterError (e : Exn)
| IoError (cause : string)
| JsonError (message : string)
| AssertionError (message : string)
| GenericError (message : string).

(** [error instanceof Error ? error.message : String(error)]. *)
Definition errorMessage (error : HostError) : string :=
  match error with
  | ConverterError (ValidationError message) => message
  | ConverterError (EncodeError cause) => cause
  | ConverterError (DecodeError cause) => cause
  | ConverterError (RepoError cause) => cause
  | IoError cause => cause
  | JsonError message => message
  | AssertionError message => message
  | GenericError message => message
  end.

(** What the host can observe of a run, in order. *)
Inductive Event : Type :=
| EngineEvent (call : EngineCall)
| ReadFile (path : string)
| WriteFile (path : string) (data : list byte)
| ReadTextFile (path : string)
| WriteTextFile (path : string) (text : string)
| ReadStdin
| StdoutWrite (data : list byte)
| ConsoleLog (args : list string)
| ConsoleError (args : list string).

(** How a run ends when it does not return: an exception, or
    [Deno.exit(code)], which no handler catches. *)
Inductive Stop : Type :=
| Thrown (error : HostError)
| Exited (code : nat).

(** [Deno] as the source uses it.  [Files] is the state of the file
    system and of the standard streams; [Deno_stdin_chunks] is the
    sequence of chunks [Deno.stdin.readable] yields until it closes. *)
Record FileSystem : Type := {
  Files : Type;
  Deno_readFile : string -> Files -> Files * (string + list byte);
  Deno_writeFile : string -> list byte -> Files -> Files * (string + unit);
  Deno_readTextFile : string -> Files -> Files * (string + string);
  Deno_writeTextFile : string -> string -> Files -> Files * (string + unit);
  Deno_stdout_write : list byte -> Files -> Files * (string + nat);
  Deno_stdin_chunks : Files -> Files * (string + list (list byte))
}.

(** The state a run on the host threads: the world of the engine and
    the file system. *)
Record HostState (W F : Type) : Type := {
  engineWorld : W;
  fileSystem : F
}.
Arguments engineWorld {W F} _.
Arguments fileSystem {W F} _.

Record HostRun (S A : Type) : Type := {
  events : list Event;
  host : S;
  verdict : Stop + A
}.
Arguments events {S A} _.
Arguments host {S A} _.
Arguments verdict {S A} _.

Definition Host (S A : Type) : Type := S -> HostRun S A.

Definition hret {S A : Type} (a : A) : Host S A :=
  fun s => {| events := []; host := s; verdict := inr a |}.

Definition hthrow {S A : Type} (error : HostError) : Host S A :=
  fun s => {| events := []; host := s; verdict := inl (Thrown error) |}.

(** [Deno.exit(code)]. *)
Definition hexit {S A : Type} (code : nat) : Host S A :=
  fun s => {| events := []; host := s; verdict := inl (Exited code) |}.

Definition hbind {S A B : Type} (m : Host S A) (k : A -> Host S B)
  : Host S B :=
  fun s =>
    let r := m s in
    match verdict r with
    | inl stop => {| events := events r; host := host r; verdict := inl stop |}
    | inr a =>
        let r' := k a (host r) in
        {| events := events r ++ events r'; host := host r';
           verdict := verdict r' |}
    end.

(** [try { body } catch (error) { handler }]: an exit is not caught. *)
Definition htry {S A : Type} (body : Host S A)
  (handler : HostError -> Host S A) : Host S A :=
  fun s =>
    let r := body s in
    match verdict r with
    | inl (Thrown error) =>
        let r' := handler error (host r) in
        {| events := events r ++ events r'; host := host r';
           verdict := verdict r' |}
    | _ => r
    end.

Notation "x <~ m ;; k" := (hbind m (fun x => k))
  (at level 61, m at next level, right associativity).

(** A console call: it only leaves its trace. *)
Definition emit {S : Type} (event : Event) : Host S unit :=
  fun s => {| events := [event]; host := s; verdict := inr tt |}.

Section HostCalls.
Context {W F : Type}.

(** A converter computation run on the host: it moves the world of the
    engine only. *)
Definition liftConverter {A : Type} (m : M W A) : Host (HostState W F) A :=
  fun s =>
    let r := m (engineWorld s) in
    {| events := map EngineEvent (calls r);
       host := {| engineWorld := world r; fileSystem := fileSystem s |};
       verdict := match outcome r with
                  | inl e => inl (Thrown (ConverterError e))
                  | inr a => inr a
                  end |}.

(** A call on the file system: it moves the file system only. *)
Definition fileCall {A : Type} (event : Event)
  (op : F -> F * (string + A)) : Host (HostState W F) A :=
  fun s =>
    let (files', r) := op (fileSystem s) in
    {| events := [event];
       host := {| engineWorld := engineWorld s; fileSystem := files' |};
       verdict := match r with
                  | inl cause => inl (Thrown (IoError cause))
                  | inr a => inr a
                  end |}.
End HostCalls.

(** ** File operations of the converter (lines 47-68) *)

Section FileOperations.
Variable E : Engine.
Variable FS : FileSystem.

Definition HostOf : Type := HostState (World E) (Files FS).

(** Lines 47-54. *)
Definition writeJsonAsAutomerge (json : JsValue) (filePath : string)
  (options : ConversionOptions) : Host HostOf unit :=
  binary <~ liftConverter (jsonToAutomerge E json options) ;;
  fileCall (WriteFile filePath binary) (Deno_writeFile FS filePath binary).

(** Lines 62-68. *)
Definition readAutomergeAsJson (filePath : string)
  (options : ConversionOptions) : Host HostOf JsValue :=
  binary <~ fileCall (ReadFile filePath) (Deno_readFile FS filePath) ;;
  liftConverter (automergeToJson E binary options).
End FileOperations.

(** What the converter assumes of the file system: right after a write
    that succeeded, reading the same path gives the bytes written. *)
Definition readsBackWrites (FS : FileSystem) : Prop :=
  forall path data files files',
    Deno_writeFile FS path data files = (files', inr tt) ->
    exists files'', Deno_readFile FS path files' = (files'', inr data).

(** A file system for the examples: a list of paths with their content,
    the most recent write first; the empty path cannot be written and a
    path never written cannot be read. *)
Module SimpleFiles.

Fixpoint lookupFile (path : string) (files : list (string * list byte))
  : option (list byte) :=
  match files with
  | [] => None
  | (p, data) :: rest =>
      if String.eqb path p then Some data else lookupFile path rest
  end.

Definition readFile (path : string) (files : list (string * list byte))
  : list (string * list byte) * (string + list byte) :=
  match lookupFile path files with
  | Some data => (files, inr data)
  | None => (files, inl "No such file or directory")
  end.

Definition writeFile (path : string) (data : list byte)
  (files : list (string * list byte))
  : list (string * list byte) * (string + unit) :=
  if String.eqb path "" then (files, inl "Is a directory")
  else ((path, data) :: files, inr tt).

Definition readTextFile (path : string) (files : list (string * list byte))
  : list (string * list byte) * (string + string) :=
  match lookupFile path files with
  | Some data => (files, inr (string_of_list_byte data))
  | None => (files, inl "No such file or directory")
  end.

Definition writeTextFile (path text : string)
  (files : list (string * list byte))
  : list (string * list byte) * (string + unit) :=
  writeFile path (list_byte_of_string text) files.

Definition fs : FileSystem :=
  {| Files := list (string * list byte);
     Deno_readFile := readFile;
     Deno_writeFile := writeFile;
     Deno_readTextFile := readTextFile;
     Deno_writeTextFile := writeTextFile;
     Deno_stdout_write := fun data files => (files, inr (List.length data));
     Deno_stdin_chunks := fun files =>
       (files, inr match lookupFile "/dev/stdin" files with
                   | Some data => [data]
                   | None => []
                   end) |}.

(** A host with the small engine in world [w] and no file. *)
Definition emptyHost (w : nat) : HostState nat (list (string * list byte)) :=
  {| engineWorld := w; fileSystem := [] |}.

End SimpleFiles.

(** ** The command line ([cli.ts]) *)

(** Lines 14-21. *)
Record CliOptions : Type := {
  opt_input : option string;
  opt_output : option string;
  opt_actor : option string;
  opt_validate : option bool;
  opt_test : option bool;
  opt_help : option bool
}.

(** [const options: CliOptions = {}]. *)
Definition noOptions : CliOptions :=
  {| opt_input := None; opt_output := None; opt_actor := None;
     opt_validate := None; opt_test := None; opt_help := None |}.

Definition setInput (value : option string) (o : CliOptions) : CliOptions :=
  {| opt_input := value; opt_output := opt_output o;
     opt_actor := opt_actor o; opt_validate := opt_validate o;
     opt_test := opt_test o; opt_help := opt_help o |}.

Definition setOutput (value : option string) (o : CliOptions) : CliOptions :=
  {| opt_input := opt_input o; opt_output := value;
     opt_actor := opt_actor o; opt_validate := opt_validate o;
     opt_test := opt_test o; opt_help := opt_help o |}.

Definition setActor (value : option string) (o : CliOptions) : CliOptions :=
  {| opt_input := opt_input o; opt_output := opt_output o;
     opt_actor := value; opt_validate := opt_validate o;
     opt_test := opt_test o; opt_help := opt_help o |}.

Definition setValidate (o : CliOptions) : CliOptions :=
  {| opt_input := opt_input o; opt_output := opt_output o;
     opt_actor := opt_actor o; opt_validate := Some true;
     opt_test := opt_test o; opt_help := opt_help o |}.

Definition setTest (o : CliOptions) : CliOptions :=
  {| opt_input := opt_input o; opt_output := opt_output o;
     opt_actor := opt_actor o; opt_validate := opt_validate o;
     opt_test := Some true; opt_help := opt_help o |}.

Definition setHelp (o : CliOptions) : CliOptions :=
  {| opt_input := opt_input o; opt_output := opt_output o;
     opt_actor := opt_actor o; opt_validate := opt_validate o;
     opt_test := opt_test o; opt_help := Some true |}.

(** [arg === a || arg === b]. *)
Definition isEither (arg a b : string) : bool :=
  String.eqb arg a || String.eqb arg b.

(** Truthiness of a string: every string but the empty one. *)
Definition truthyString (s : string) : bool :=
  negb (String.eqb s "").

(** Truthiness of an optional string field. *)
Definition truthyField (field : option string) : bool :=
  match field with
  | Some s => truthyString s
  | None => false
  end.

(** The loop of [parseArgs] (lines 66-84) from the argument it stands at.
    [args[++i]] takes the next argument as the value of the flag, and is
    [undefined] when the flag is the last argument. *)
Fixpoint parseLoop (args : list string) (command : string)
  (options : CliOptions) : string * CliOptions :=
  match args with
  | [] => (command, options)
  | arg :: rest =>
      if isEither arg "-h" "--help" then
        parseLoop rest command (setHelp options)
      else if isEither arg "-i" "--input" then
        match rest with
        | [] => (command, setInput None options)
        | value :: rest' =>
            parseLoop rest' command (setInput (Some value) options)
        end
      else if isEither arg "-o" "--output" then
        match rest with
        | [] => (command, setOutput None options)
        | value :: rest' =>
            parseLoop rest' command (setOutput (Some value) options)
        end
      else if isEither arg "-a" "--actor" then
        match rest with
        | [] => (command, setActor None options)
        | value :: rest' =>
            parseLoop rest' command (setActor (Some value) options)
        end
      else if isEither arg "-v" "--validate" then
        parseLoop rest command (setValidate options)
      else if isEither arg "-t" "--test" then
        parseLoop rest command (setTest options)
      else if negb (truthyString command) && negb (String.prefix "-" arg) then
        parseLoop rest arg options
      else parseLoop rest command options
  end.

(** Lines 62-87. *)
Definition parseArgs (args : list string) : string * CliOptions :=
  parseLoop args "" noOptions.

(** *** Argument vectors by their meaning

    An argument vector read as the user wrote it: flags, flags with their
    value, and words (anything that is not one of the twelve flags). *)
Inductive Token : Type :=
| THelp (long : bool)
| TInput (long : bool) (value : string)
| TOutput (long : bool) (value : string)
| TActor (long : bool) (value : string)
| TValidate (long : bool)
| TTest (long : bool)
| TWord (word : string).

Definition isFlag (arg : string) : bool :=
  isEither arg "-h" "--help" || isEither arg "-i" "--input"
  || isEither arg "-o" "--output" || isEither arg "-a" "--actor"
  || isEither arg "-v" "--validate" || isEither arg "-t" "--test".

Definition spelling (long : bool) (short full : string) : string :=
  if long then full else short.

Definition renderToken (t : Token) : list string :=
  match t with
  | THelp long => [spelling long "-h" "--help"]
  | TInput long value => [spelling long "-i" "--input"; value]
  | TOutput long value => [spelling long "-o" "--output"; value]
  | TActor long value => [spelling long "-a" "--actor"; value]
  | TValidate long => [spelling long "-v" "--validate"]
  | TTest long => [spelling long "-t" "--test"]
  | TWord word => [word]
  end.

Definition render (tokens : list Token) : list string :=
  flat_map renderToken tokens.

(** A word is not a flag. *)
Definition wellFormedToken (t : Token) : bool :=
  match t with
  | TWord word => negb (isFlag word)
  | _ => true
  end.

(** The last value a list holds, if any. *)
Definition lastOf {A : Type} (values : list A) : option A :=
  match rev values with
  | value :: _ => Some value
  | [] => None
  end.

Definition inputsOf (tokens : list Token) : list string :=
  flat_map (fun t => match t with TInput _ v => [v] | _ => [] end) tokens.

Definition outputsOf (tokens : list Token) : list string :=
  flat_map (fun t => match t with TOutput _ v => [v] | _ => [] end) tokens.

Definition actorsOf (tokens : list Token) : list string :=
  flat_map (fun t => match t with TActor _ v => [v] | _ => [] end) tokens.

Definition isHelpToken (t : Token) : bool :=
  match t with THelp _ => true | _ => false end.

Definition isValidateToken (t : Token) : bool :=
  match t with TValidate _ => true | _ => false end.

Definition isTestToken (t : Token) : bool :=
  match t with TTest _ => true | _ => false end.

(** A word that can be the command: not empty, no leading dash. *)
Definition isCommandWord (t : Token) : bool :=
  match t with
  | TWord word => truthyString word && negb (String.prefix "-" word)
  | _ => false
  end.

(** [true] when set, [undefined] otherwise. *)
Definition flagSet (present : bool) : option bool :=
  if present then Some true else None.

(** What an argument vector means: the command is the first word that can
    be one, each of input, output and actor is the value of its last
    flag, each switch is set when it occurs. *)
Definition meaning (tokens : list Token) : string * CliOptions :=
  (match find isCommandWord tokens with
   | Some (TWord word) => word
   | _ => ""
   end,
   {| opt_input := lastOf (inputsOf tokens);
      opt_output := lastOf (outputsOf tokens);
      opt_actor := lastOf (actorsOf tokens);
      opt_validate := flagSet (existsb isValidateToken tokens);
      opt_test := flagSet (existsb isTestToken tokens);
      opt_help := flagSet (existsb isHelpToken tokens) |}).

(** The argument vector read token by token; a flag that needs a value
    and stands last has none and is returned apart. *)
Fixpoint tokenize (args : list string) : list Token * option string :=
  match args with
  | [] => ([], None)
  | arg :: rest =>
      let flagWith (make : string -> Token) :=
        match rest with
        | [] => ([], Some arg)
        | value :: rest' =>
            let (tokens, dangling) := tokenize rest' in
            (make value :: tokens, dangling)
        end in
      let single (t : Token) :=
        let (tokens, dangling) := tokenize rest in (t :: tokens, dangling) in
      if String.eqb arg "-h" then single (THelp false)
      else if String.eqb arg "--help" then single (THelp true)
      else if String.eqb arg "-i" then flagWith (TInput false)
      else if String.eqb arg "--input" then flagWith (TInput true)
      else if String.eqb arg "-o" then flagWith (TOutput false)
      else if String.eqb arg "--output" then flagWith (TOutput true)
      else if String.eqb arg "-a" then flagWith (TActor false)
      else if String.eqb arg "--actor" then flagWith (TActor true)
      else if String.eqb arg "-v" then single (TValidate false)
      else if String.eqb arg "--validate" then single (TValidate true)
      else if String.eqb arg "-t" then single (TTest false)
      else if String.eqb arg "--test" then single (TTest true)
      else single (TWord arg)
  end.

(** *** Reading standard input (lines 89-107) *)

(** [new Uint8Array(length)]: [length] zero bytes. *)
Definition Uint8Array_new (length : nat) : list byte := repeat x00 length.

(** [target.set(source, offset)]; a [RangeError] ([None]) when the source
    does not fit. *)
Definition Uint8Array_set (target source : list byte) (offset : nat)
  : option (list byte) :=
  if Nat.leb (offset + List.length source) (List.length target)
  then Some (firstn offset target ++ source
             ++ skipn (offset + List.length source) target)
  else None.

(** [chunks.reduce((acc, chunk) => acc + chunk.length, 0)]. *)
Definition totalLength (chunks : list (list byte)) : nat :=
  fold_left (fun acc chunk => acc + List.length chunk) chunks 0.

(** The loop of lines 100-104. *)
Fixpoint copyChunks (chunks : list (list byte)) (combined : list byte)
  (offset : nat) : option (list byte) :=
  match chunks with
  | [] => Some combined
  | chunk :: rest =>
      match Uint8Array_set combined chunk offset with
      | Some combined' =>
          copyChunks rest combined' (offset + List.length chunk)
      | None => None
      end
  end.

(** Lines 97-104. *)
Definition combineChunks (chunks : list (list byte)) : option (list byte) :=
  copyChunks chunks (Uint8Array_new (totalLength chunks)) 0.

(** *** The commands (lines 109-227) *)

(** The double quote character. *)
Definition dq : string := String (ascii_of_nat 34) EmptyString.

(** Lines 23-60. *)
Definition HELP_TEXT : string :=
  String.concat ""
    ["
JSON ↔ Automerge Binary Converter

USAGE:
  deno run -A cli.ts [OPTIONS] <COMMAND>

COMMANDS:
  json2bin    Convert JSON (from stdin or file) to Automerge binary
  bin2json    Convert Automerge binary file to JSON (to stdout or file)

OPTIONS:
  -i, --input <FILE>     Input file path (if not provided, reads from stdin for json2bin)
  -o, --output <FILE>    Output file path (if not provided, writes to stdout for bin2json)
  -a, --actor <ID>       Actor ID for the automerge document
  -v, --validate         Validate JSON before conversion
  -t, --test             Test repo compatibility after conversion
  -h, --help             Show this help message

EXAMPLES:
  # Convert JSON from stdin to binary file
  echo '{"; dq; "hello"; dq; ": "; dq; "world"; dq;
     "}' | deno run -A cli.ts json2bin -o document.automerge

  # Convert JSON file to binary file
  deno run -A cli.ts json2bin -i data.json -o document.automerge

  # Convert binary file to JSON (stdout)
  deno run -A cli.ts bin2json -i document.automerge

  # Convert binary file to JSON file
  deno run -A cli.ts bin2json -i document.automerge -o output.json

  # With validation and testing
  echo '{"; dq; "test"; dq;
     ": true}' | deno run -A cli.ts json2bin -o test.automerge -v -t

  # Using deno tasks
  deno task json2bin -i data.json -o document.automerge -v -t
  deno task bin2json -i document.automerge -o output.json
"].

(** A number in a template literal. *)
Definition showNat (n : nat) : string :=
  NilZero.string_of_uint (Nat.to_uint n).

Section CommandLine.
Variable E : Engine.
Variable R : Repository (World E).
Variable FS : FileSystem.

(** [JSON.parse(text)]: the value, or the message of the [SyntaxError]. *)
Variable JSON_parse : string -> string + JsValue.

(** [JSON.stringify(value, null, 2)]: the text, or the message of the
    [TypeError].  It is applied to loaded documents only, which are
    objects: the [undefined] it returns for a bare [undefined], function
    or symbol does not arise. *)
Variable JSON_stringify : JsValue -> string + string.

(** [new TextDecoder().decode(bytes)]. *)
Variable TextDecoder_decode : list byte -> string.

Local Abbreviation CliHost := (Host (HostOf E FS)).

(** Lines 89-107. *)
Definition readStdin : CliHost string :=
  chunks <~ fileCall ReadStdin (Deno_stdin_chunks FS) ;;
  match combineChunks chunks with
  | Some combined => hret (TextDecoder_decode combined)
  | None => hthrow (GenericError "offset is out of bounds")
  end.

(** [try { jsonData = JSON.parse(jsonText) } catch (error) { ... }] of
    lines 120-128 and 132-140. *)
Definition parseOrExit (label jsonText : string) : CliHost JsValue :=
  match JSON_parse jsonText with
  | inr jsonData => hret jsonData
  | inl message =>
      _ <~ emit (ConsoleError [label; message]) ;;
      hexit 1
  end.

(** Lines 115-141: the JSON value to convert, from the input file or
    from standard input. *)
Definition readJsonInput (options : CliOptions) : CliHost JsValue :=
  match opt_input options with
  | Some input =>
      if truthyString input then
        jsonText <~ fileCall (ReadTextFile input)
                      (Deno_readTextFile FS input) ;;
        parseOrExit "Error parsing JSON file:" jsonText
      else
        jsonText <~ readStdin ;;
        parseOrExit "Error parsing JSON from stdin:" jsonText
  | None =>
      jsonText <~ readStdin ;;
      parseOrExit "Error parsing JSON from stdin:" jsonText
  end.

(** Lines 146-154: the bytes go to the output file or to standard
    output. *)
Definition writeBinary (options : CliOptions) (binary : list byte)
  : CliHost unit :=
  match opt_output options with
  | Some output =>
      if truthyString output then
        _ <~ fileCall (WriteFile output binary)
               (Deno_writeFile FS output binary) ;;
        emit (ConsoleError
                [String.concat ""
                   ["✓ Converted JSON to Automerge binary (";
                    showNat (List.length binary); " bytes) -> "; output]])
      else
        _ <~ fileCall (StdoutWrite binary) (Deno_stdout_write FS binary) ;;
        hret tt
  | None =>
      _ <~ fileCall (StdoutWrite binary) (Deno_stdout_write FS binary) ;;
      hret tt
  end.

(** Lines 143-169. *)
Definition convertAndReport (options : CliOptions) (jsonData : JsValue)
  : CliHost unit :=
  let conversionOptions :=
    {| actor := opt_actor options; validateJson := opt_validate options |} in
  htry
    (binary <~ liftConverter (jsonToAutomerge E jsonData conversionOptions) ;;
     _ <~ writeBinary options binary ;;
     if truthy (opt_test options) then
       compatible <~ liftConverter (testRepoCompatibility E R binary) ;;
       emit (ConsoleError
               [String.concat ""
                  ["✓ Repo compatibility test: ";
                   if compatible : bool then "PASS" else "FAIL"]])
     else hret tt)
    (fun error =>
       _ <~ emit (ConsoleError ["Error during conversion:";
                                errorMessage error]) ;;
       hexit 1).

(** Lines 109-170. *)
Definition json2bin (options : CliOptions) : CliHost unit :=
  jsonData <~ readJsonInput options ;;
  convertAndReport options jsonData.

(** Lines 172-205. *)
Definition bin2json (options : CliOptions) : CliHost unit :=
  if negb (truthyField (opt_input options)) then
    _ <~ emit (ConsoleError
                 ["Error: Input file required for bin2json command"]) ;;
    hexit 1
  else
    let input := match opt_input options with Some i => i | None => "" end in
    let conversionOptions :=
      {| actor := opt_actor options; validateJson := None |} in
    htry
      (jsonData <~ readAutomergeAsJson E FS input conversionOptions ;;
       match JSON_stringify jsonData with
       | inl message => hthrow (JsonError message)
       | inr jsonText =>
           match opt_output options with
           | Some output =>
               if truthyString output then
                 _ <~ fileCall (WriteTextFile output jsonText)
                        (Deno_writeTextFile FS output jsonText) ;;
                 emit (ConsoleError
                         [String.concat ""
                            ["✓ Converted Automerge binary to JSON -> ";
                             output]])
               else emit (ConsoleLog [jsonText])
           | None => emit (ConsoleLog [jsonText])
           end
       end)
      (fun error =>
         _ <~ emit (ConsoleError ["Error during conversion:";
                                  errorMessage error]) ;;
         hexit 1).

(** Lines 207-227, on the arguments [Deno.args]. *)
Definition main (args : list string) : CliHost unit :=
  let (command, options) := parseArgs args in
  if truthy (opt_help options) || negb (truthyString command) then
    _ <~ emit (ConsoleLog [HELP_TEXT]) ;;
    hexit 0
  else if String.eqb command "json2bin" then json2bin options
  else if String.eqb command "bin2json" then bin2json options
  else
    _ <~ emit (ConsoleError
                 [String.concat ""
                    ["Error: Unknown command "; dq; command; dq]]) ;;
    _ <~ emit (ConsoleError ["Use --help to see available commands"]) ;;
    hexit 1.
End CommandLine.

(** A computation that never ends the process itself. *)
Definition neverExits {S A : Type} (m : Host S A) : Prop :=
  forall s code, verdict (m s) <> inl (Exited code).

(** The options with the test switch off. *)
Definition withoutTest (o : CliOptions) : CliOptions :=
  {| opt_input := opt_input o; opt_output := opt_output o;
     opt_actor := opt_actor o; opt_validate := opt_validate o;
     opt_test := None; opt_help := opt_help o |}.

(** An event of the compatibility test: a call on the repository or the
    line that reports the result. *)
Definition isTestEvent (event : Event) : bool :=
  match event with
  | EngineEvent CallRepoNew => true
  | EngineEvent (CallImport _) => true
  | EngineEvent CallIsReady => true
  | ConsoleError _ => true
  | _ => false
  end.

(** An event that writes the converted bytes out. *)
Definition isOutputEvent (event : Event) : bool :=
  match event with
  | WriteFile _ _ => true
  | StdoutWrite _ => true
  | WriteTextFile _ _ => true
  | _ => false
  end.

(** An earlier value gives way to a later one. *)
Definition orElse {A : Type} (later earlier : option A) : option A :=
  match later with
  | Some value => Some value
  | None => earlier
  end.

(** The state of the loop continued by the meaning of what is left. *)
Definition continueWith (command : string) (options : CliOptions)
  (rest : string * CliOptions) : string * CliOptions :=
  (if truthyString command then command else fst rest,
   {| opt_input := orElse (opt_input (snd rest)) (opt_input options);
      opt_output := orElse (opt_output (snd rest)) (opt_output options);
      opt_actor := orElse (opt_actor (snd rest)) (opt_actor options);
      opt_validate := orElse (opt_validate (snd rest)) (opt_validate options);
      opt_test := orElse (opt_test (snd rest)) (opt_test options);
      opt_help := orElse (opt_help (snd rest)) (opt_help options) |}).

(** A flag that needs a value. *)
Definition isValueFlag (arg : string) : bool :=
  isEither arg "-i" "--input" || isEither arg "-o" "--output"
  || isEither arg "-a" "--actor".

(** A value flag that stands last assigns [undefined]. *)
Definition clearValue (flag : string) (o : CliOptions) : CliOptions :=
  if isEither flag "-i" "--input" then setInput None o
  else if isEither flag "-o" "--output" then setOutput None o
  else setActor None o.

(** The arguments a dangling flag stands for. *)
Definition danglingArgs (dangling : option string) : list string :=
  match dangling with
  | Some flag => [flag]
  | None => []
  end.

(** Where [json2bin] sends the bytes (lines 146-154). *)
Definition outputOf (options : CliOptions) (binary : list byte) : Event :=
  match opt_output options with
  | Some output =>
      if truthyString output then WriteFile output binary
      else StdoutWrite binary
  | None => StdoutWrite binary
  end.

(** Where [bin2json] sends the text (lines 189-197). *)
Definition printOf (options : CliOptions) (jsonText : string) : Event :=
  match opt_output options with
  | Some output =>
      if truthyString output then WriteTextFile output jsonText
      else ConsoleLog [jsonText]
  | None => ConsoleLog [jsonText]
  end.

(** An event that hands text to the user: a text file written or a line
    on standard output. *)
Definition isPrintEvent (event : Event) : bool :=
  match event with
  | WriteTextFile _ _ => true
  | ConsoleLog _ => true
  | _ => false
  end.

(** ** Text for the examples

    A notation for checklists that stands in for JSON text where the
    examples need a parser and a printer: one letter per flag, [t], [f]
    or [n]. *)
Module Letters.

Definition flagOfLetter (c : ascii) : option (option bool) :=
  if Ascii.eqb c "t" then Some (Some true)
  else if Ascii.eqb c "f" then Some (Some false)
  else if Ascii.eqb c "n" then Some None
  else None.

Fixpoint flagsOfLetters (text : string) : option (list (option bool)) :=
  match text with
  | EmptyString => Some []
  | String c rest =>
      match flagOfLetter c, flagsOfLetters rest with
      | Some flag, Some flags => Some (flag :: flags)
      | _, _ => None
      end
  end.

Definition letterOfFlag (flag : option bool) : ascii :=
  match flag with
  | Some true => "t"
  | Some false => "f"
  | None => "n"
  end.

Definition parse (text : string) : string + JsValue :=
  match flagsOfLetters text with
  | Some flags => inr (Mini.flagsValue flags)
  | None => inl "Unexpected token"
  end.

Definition stringify (json : JsValue) : string + string :=
  match Mini.asFlags json with
  | Some flags => inr (string_of_list_ascii (map letterOfFlag flags))
  | None => inl "not a checklist"
  end.

Definition decode (bytes : list byte) : string := string_of_list_byte bytes.

(** A host whose file [list.txt] holds the checklist [tft]. *)
Definition sampleHost : HostState nat (list (string * list byte)) :=
  {| engineWorld := 0;
     fileSystem := [("list.txt", list_byte_of_string "tft")] |}.

(** [json2bin -i list.txt -o list.automerge -t]. *)
Definition forward : CliOptions :=
  snd (parseArgs ["json2bin"; "-i"; "list.txt"; "-o"; "list.automerge";
                  "-t"]).

(** [bin2json -i list.automerge]. *)
Definition backward : CliOptions :=
  snd (parseArgs ["bin2json"; "-i"; "list.automerge"]).

End Letters.

(** ** Test utilities ([test/fixtures/testUtils.ts]) *)

Section TestUtils.
Variable E : Engine.
Variable F : Type.

(** The message [assertEquals] of [@std/assert] builds for two booleans
    that differ. *)
Variable notEqual : bool -> bool -> string.

(** [assertEquals(actual, expected)] on booleans. *)
Definition assertEquals (actual expected : bool)
  : Host (HostState (World E) F) unit :=
  if Bool.eqb actual expected then hret tt
  else hthrow (AssertionError (notEqual actual expected)).

(** Lines 74-85.  The argument is a byte array, so the [instanceof] test
    of the first line holds. *)
Definition assertValidBinary (binary : list byte)
  : Host (HostState (World E) F) unit :=
  _ <~ assertEquals true true ;;
  _ <~ assertEquals (Nat.ltb 0 (List.length binary)) true ;;
  htry
    (_ <~ liftConverter (automergeToJson E binary emptyOptions) ;;
     hret tt)
    (fun error =>
       hthrow (GenericError
                 (String.append "Invalid binary format: "
                    (errorMessage error)))).
End TestUtils.

(** ** An engine with a map at the root

    A second engine for the examples.  It follows the engine the
    converter is run with on two points that the repository records.
    The root of a document is a map: [A.from] reads the own enumerable
    properties of the value it is given, so an array becomes the map of
    its indices (line 26 casts the value to a record, and the tests wrap
    an array in an object before they convert it).  Zero bytes load as the
    empty document (fixtures, line 94).  Like the small engine it draws an
    actor id afresh when none is given, refuses the bytes 1 2 3 4 5 and a
    truncated header, and never saves zero bytes.  It stores flat maps of
    [null], booleans and the integers 0 to 255, and refuses any other
    value. *)
Module RootMap.

Inductive Cell : Type :=
| CellNull
| CellBoolean (b : bool)
| CellNumber (n : byte).

Record RootDoc : Type := {
  rootActor : list byte;
  rootEntries : list (string * Cell)
}.

Definition numberOfByte (n : byte) : float := numberOfNat (Byte.to_nat n).

Definition allBytes : list byte :=
  flat_map (fun n => match Byte.of_nat n with
                     | Some b => [b]
                     | None => []
                     end) (seq 0 256).

(** The byte a number is stored as, when it is an integer from 0 to 255. *)
Definition byteOfNumber (n : float) : option byte :=
  find (fun b => PrimFloat.Leibniz.eqb n (numberOfByte b)) allBytes.

Definition cellOfValue (value : JsValue) : option Cell :=
  match value with
  | JNull => Some CellNull
  | JBoolean b => Some (CellBoolean b)
  | JNumber n => option_map CellNumber (byteOfNumber n)
  | _ => None
  end.

Definition valueOfCell (cell : Cell) : JsValue :=
  match cell with
  | CellNull => JNull
  | CellBoolean b => JBoolean b
  | CellNumber n => JNumber (numberOfByte n)
  end.

Fixpoint cellsOf (props : list (string * JsValue))
  : option (list (string * Cell)) :=
  match props with
  | [] => Some []
  | (key, value) :: rest =>
      match cellOfValue value, cellsOf rest with
      | Some cell, Some cells => Some ((key, cell) :: cells)
      | _, _ => None
      end
  end.

(** The elements of an array under their indices, from index [i] on. *)
Fixpoint indexFrom (i : nat) (items : list JsValue)
  : list (string * JsValue) :=
  match items with
  | [] => []
  | item :: rest => (showNat i, item) :: indexFrom (S i) rest
  end.

(** The own enumerable properties [A.from] copies to the root. *)
Definition ownProperties (json : JsValue)
  : option (list (string * JsValue)) :=
  match json with
  | JObject _ props => Some props
  | JArray items => Some (indexFrom 0 items)
  | _ => None
  end.

Definition from (json : JsValue) (actorId : option string) (w : nat)
  : nat * (string + RootDoc) :=
  match Mini.resolveActor actorId w with
  | (w', inl cause) => (w', inl cause)
  | (w', inr actorBytes) =>
      match ownProperties json with
      | Some props =>
          match cellsOf props with
          | Some cells =>
              (w', inr {| rootActor := actorBytes; rootEntries := cells |})
          | None => (w', inl "unsupported value")
          end
      | None => (w', inl "unsupported value")
      end
  end.

(** The byte format: the magic number, the length of the actor id, the
    actor id, then every entry as its key, a zero byte and its cell. *)
Definition noZero (bytes : list byte) : bool :=
  forallb (fun b => negb (Mini.byteEqb b x00)) bytes.

Definition encodeCell (cell : Cell) : list byte :=
  match cell with
  | CellNull => [x00]
  | CellBoolean false => [x01]
  | CellBoolean true => [x02]
  | CellNumber n => [x03; n]
  end.

Definition encodeEntry (entry : string * Cell) : list byte :=
  list_byte_of_string (fst entry) ++ x00 :: encodeCell (snd entry).

Definition encodeEntries (entries : list (string * Cell)) : list byte :=
  flat_map encodeEntry entries.

Definition save (doc : RootDoc) (w : nat) : nat * (string + list byte) :=
  match Byte.of_nat (List.length (rootActor doc)) with
  | Some n =>
      if forallb (fun entry => noZero (list_byte_of_string (fst entry)))
                 (rootEntries doc)
      then (w, inr (Mini.magic ++ n :: rootActor doc
                      ++ encodeEntries (rootEntries doc)))
      else (w, inl "unsupported key")
  | None => (w, inl "actor id too long")
  end.

(** The entries [bytes] encode, [key] being the bytes of the key read so
    far. *)
Fixpoint parseEntries (bytes key : list byte) {struct bytes}
  : option (list (string * Cell)) :=
  match bytes with
  | [] =>
      match key with
      | [] => Some []
      | _ :: _ => None
      end
  | b :: rest =>
      if Mini.byteEqb b x00 then
        match rest with
        | [] => None
        | tag :: rest1 =>
            if Mini.byteEqb tag x00 then
              option_map (cons (string_of_list_byte key, CellNull))
                (parseEntries rest1 [])
            else if Mini.byteEqb tag x01 then
              option_map (cons (string_of_list_byte key, CellBoolean false))
                (parseEntries rest1 [])
            else if Mini.byteEqb tag x02 then
              option_map (cons (string_of_list_byte key, CellBoolean true))
                (parseEntries rest1 [])
            else if Mini.byteEqb tag x03 then
              match rest1 with
              | [] => None
              | n :: rest2 =>
                  option_map (cons (string_of_list_byte key, CellNumber n))
                    (parseEntries rest2 [])
              end
            else None
        end
      else parseEntries rest (key ++ [b])
  end.

Definition load (binary : list byte) (actorId : option string) (w : nat)
  : nat * (string + RootDoc) :=
  match Mini.actorProblem actorId with
  | Some cause => (w, inl cause)
  | None =>
      match binary with
      | [] => (w, inr {| rootActor := []; rootEntries := [] |})
      | m1 :: m2 :: m3 :: m4 :: n :: rest =>
          if Mini.byteEqb m1 x85 && Mini.byteEqb m2 x6f
             && Mini.byteEqb m3 x4a && Mini.byteEqb m4 x83
          then
            if Nat.leb (Byte.to_nat n) (List.length rest)
            then
              match parseEntries (skipn (Byte.to_nat n) rest) [] with
              | Some entries =>
                  (w, inr {| rootActor := firstn (Byte.to_nat n) rest;
                             rootEntries := entries |})
              | None => (w, inl "invalid entry")
              end
            else (w, inl "unexpected end of input")
          else (w, inl "invalid magic bytes")
      | _ => (w, inl "not enough input")
      end
  end.

Definition view (doc : RootDoc) : JsValue :=
  objectLiteral
    (map (fun entry => (fst entry, valueOfCell (snd entry)))
         (rootEntries doc)).

Definition engine : Engine :=
  {| World := nat;
     Doc := RootDoc;
     A_from := from;
     A_save := save;
     A_load := load;
     materialize := view |}.

(** A repository over the same world: importing loads the document. *)
Definition repository : Repository nat :=
  {| Repo := unit;
     DocHandle := RootDoc;
     Repo_new := fun w => (w, inr tt);
     Repo_import := fun _ binary w => load binary None w;
     DocHandle_isReady := fun _ w => (w, inr true) |}.



(** [{ count: 2, done: true }]. *)
Definition sampleJson : JsValue :=
  objectLiteral [("count", JNumber 2%float); ("done", JBoolean true)].

End RootMap.

(** * Properties *)

(** ** The validator *)

Lemma forallb_Object_values (f : JsValue -> bool) props :
  forallb f (Object_values props) = forallb (fun kv => f (snd kv)) props.
Proof.
  unfold Object_values.
  induction props as [|kv rest IH]; cbn; [reflexivity|]. now rewrite IH.
Qed.

(** The validator as the source writes it: the cascade of tests of lines
    104-125, with [every] over the array or over [Object.values]. *)
Lemma isValidJsonObject_source (value : JsValue) :
  isValidJsonObject value =
  if isNull value || isUndefined value then false
  else if String.eqb (typeof value) "boolean"
          || String.eqb (typeof value) "number"
          || String.eqb (typeof value) "string" then true
  else if Array_isArray value then
    forallb isValidJsonObject (elementsOf value)
  else if String.eqb (typeof value) "object" then
    match value with
    | JObject proto props =>
        if negb (isObjectFunction (getConstructor proto props))
           && negb (isUndefined (getConstructor proto props))
        then false
        else forallb isValidJsonObject (elementsOf value)
    | _ => false
    end
  else false.
Proof.
  destruct value; try reflexivity.
  cbn [isValidJsonObject isNull isUndefined typeof Array_isArray elementsOf
       orb String.eqb Ascii.eqb Bool.eqb andb].
  now rewrite forallb_Object_values.
Qed.

Lemma lookupProp_In key props v :
  lookupProp key props = Some v -> In (key, v) props.
Proof.
  induction props as [|[k u] rest IH]; cbn; [discriminate|].
  destruct (String.eqb key k) eqn:Hk.
  - apply String.eqb_eq in Hk. intros [= ->]. subst. now left.
  - intros H. right. now apply IH.
Qed.


Lemma valid_prop proto props key item :
  isValidJsonObject (JObject proto props) = true ->
  In (key, item) props -> isValidJsonObject item = true.
Proof.
  cbn. destruct (negb _ && negb _); [discriminate|].
  intros H Hin. rewrite forallb_forall in H. now apply (H (key, item)).
Qed.

(** A valid object passed the test of line 118. *)
Lemma valid_constructor proto props :
  isValidJsonObject (JObject proto props) = true ->
  isObjectFunction (getConstructor proto props)
  || isUndefined (getConstructor proto props) = true.
Proof.
  cbn.
  destruct (isObjectFunction _), (isUndefined _); cbn; congruence.
Qed.

(** An own property named [constructor] makes an object invalid: it
    fails the test of line 118, or it is [Object] or [undefined] and
    [every] rejects it as a property value. *)
Lemma constructor_prop_invalid proto props value :
  lookupProp "constructor" props = Some value ->
  isValidJsonObject (JObject proto props) = false.
Proof.
  intros Hown.
  destruct (isValidJsonObject (JObject proto props)) eqn:Hv; [|reflexivity].
  exfalso.
  pose proof (valid_constructor _ _ Hv) as Hk.
  pose proof (valid_prop _ _ _ _ Hv (lookupProp_In _ _ _ Hown)) as Hvalue.
  unfold getConstructor in Hk. rewrite Hown in Hk.
  destruct value; discriminate.
Qed.




(** Induction on values that reaches inside arrays and objects. *)
Section DeepInduction.
Variable P : JsValue -> Prop.
Hypothesis P_undefined : P JUndefined.
Hypothesis P_null : P JNull.
Hypothesis P_boolean : forall b, P (JBoolean b).
Hypothesis P_number : forall n, P (JNumber n).
Hypothesis P_string : forall s, P (JString s).
Hypothesis P_symbol : forall d, P (JSymbol d).
Hypothesis P_bigint : forall z, P (JBigInt z).
Hypothesis P_function : forall f, P (JFunction f).
Hypothesis P_array : forall items, Forall P items -> P (JArray items).
Hypothesis P_object :
  forall proto props,
    Forall (fun kv => P (snd kv)) props -> P (JObject proto props).

Fixpoint JsValue_deep_ind (value : JsValue) : P value :=
  match value with
  | JUndefined => P_undefined
  | JNull => P_null
  | JBoolean b => P_boolean b
  | JNumber n => P_number n
  | JString s => P_string s
  | JSymbol d => P_symbol d
  | JBigInt z => P_bigint z
  | JFunction f => P_function f
  | JArray items =>
      P_array items
        ((fix each (l : list JsValue) : Forall P l :=
            match l with
            | [] => Forall_nil P
            | item :: rest =>
                Forall_cons item (JsValue_deep_ind item) (each rest)
            end) items)
  | JObject proto props =>
      P_object proto props
        ((fix each (l : list (string * JsValue))
            : Forall (fun kv => P (snd kv)) l :=
            match l with
            | [] => Forall_nil _
            | kv :: rest =>
                Forall_cons kv (JsValue_deep_ind (snd kv)) (each rest)
            end) props)
  end.
End DeepInduction.








(** C4, as the code has it.  The object that
    [JSON.parse('{"constructor":"x"}')] builds is a plain mapping: a JSON
    value, its prototype [Object.prototype], its only property value a
    valid string.  The validator rejects it all the same: the
    [value.constructor] of line 118 reads the own property, the string,
    where the comment of line 117 means the constructor the prototype
    provides, which is [Object].  With any other key the same object is
    valid. *)
Theorem plain_mapping_rejected :
  let value := objectLiteral [("constructor", JString "x")] in
  IsJsonValue value
  /\ Forall (fun item => isValidJsonObject item = true) (elementsOf value)
  /\ getConstructor (ProtoOf CObject) [] = JFunction (FCtor CObject)
  /\ getConstructor (ProtoOf CObject) [("constructor", JString "x")]
     = JString "x"
  /\ isValidJsonObject value = false
  /\ isValidJsonObject (objectLiteral [("constructed", JString "x")]) = true.
Proof.
  cbn zeta. repeat split.
  - constructor.
    + cbn. constructor; [intros []|constructor].
    + repeat constructor.
  - repeat constructor.
Qed.

(** C2, as the code has it.  The validator rejects [null] (line 104) as it
    rejects [undefined]; so encoding [null], or the fixture holding a null
    property, with validation on throws before any engine call. *)
Theorem null_is_rejected :
  isValidJsonObject JNull = false
  /\ isValidJsonObject JUndefined = false
  /\ isValidJsonObject simpleFixture = false
  /\ (forall (E : Engine) actorId w,
        jsonToAutomerge E JNull
          {| actor := actorId; validateJson := Some true |} w
        = {| calls := []; world := w;
             outcome := inl (ValidationError invalidJsonMessage) |}).
Proof. repeat split. Qed.

(** C9. The repo-compatible encoding is the plain encoding: same bytes,
    same engine calls, same exceptions, for every input and options. *)
Theorem jsonToRepoCompatible_is_jsonToAutomerge :
  forall (E : Engine) (json : JsValue) (options : ConversionOptions),
    jsonToRepoCompatible E json options = jsonToAutomerge E json options.
Proof. reflexivity. Qed.

(** C10. Every value whose [typeof] is ["number"] is valid, the
    non-finite ones included: NaN, positive and negative infinity. *)
Theorem numbers_are_valid :
  (forall value, typeof value = "number" -> isValidJsonObject value = true)
  /\ (forall n : float, isValidJsonObject (JNumber n) = true)
  /\ (PrimFloat.is_nan nan = true
      /\ isValidJsonObject (JNumber nan) = true)
  /\ (PrimFloat.is_infinity infinity = true
      /\ isValidJsonObject (JNumber infinity) = true)
  /\ (PrimFloat.is_infinity neg_infinity = true
      /\ isValidJsonObject (JNumber neg_infinity) = true).
Proof.
  repeat split.
  intros value H. destruct value; cbn in H; try discriminate. reflexivity.
Qed.

(** ** Structural equality is what its name says *)

Lemma structEq_items_refl items : Forall2 StructEq items items.
Proof. induction items; constructor; [apply SE_same|assumption]. Qed.

(** Arrays are compared position by position. *)
Lemma structEq_array xs ys :
  StructEq (JArray xs) (JArray ys) <-> Forall2 StructEq xs ys.
Proof.
  split; [|apply SE_array].
  inversion 1; subst; [apply structEq_items_refl|assumption].
Qed.

Lemma structEq_boolean a b : StructEq (JBoolean a) (JBoolean b) -> a = b.
Proof. now inversion 1. Qed.

Example structEq_array_order :
  ~ StructEq (JArray [JBoolean true; JBoolean false])
             (JArray [JBoolean false; JBoolean true]).
Proof.
  intros H. apply structEq_array in H.
  inversion H as [|? ? ? ? Hhead _]; subst.
  apply structEq_boolean in Hhead. discriminate.
Qed.

Lemma lookupProp_none key props :
  ~ In key (map fst props) -> lookupProp key props = None.
Proof.
  induction props as [|[k v] rest IH]; cbn; [reflexivity|].
  intros Hnot. destruct (String.eqb key k) eqn:Hk.
  - apply String.eqb_eq in Hk. subst. elim Hnot. now left.
  - apply IH. intros Hin. apply Hnot. now right.
Qed.

Lemma lookupProp_unique key value props :
  NoDup (map fst props) -> In (key, value) props ->
  lookupProp key props = Some value.
Proof.
  induction props as [|[k v] rest IH]; cbn; [contradiction|].
  intros Hnodup Hin. inversion Hnodup as [|? ? Hfresh Hrest]; subst.
  destruct Hin as [[= -> ->]|Hin].
  - now rewrite String.eqb_refl.
  - destruct (String.eqb key k) eqn:Hk; [|now apply IH].
    apply String.eqb_eq in Hk. subst k. elim Hfresh.
    apply in_map_iff. now exists (key, value).
Qed.

(** Objects are compared key by key: listing the same properties in
    another order gives an equal object. *)
Lemma structEq_key_order proto ps qs :
  NoDup (map fst ps) -> Permutation ps qs ->
  StructEq (JObject proto ps) (JObject proto qs).
Proof.
  intros Hnodup Hperm. apply SE_object. intros key.
  assert (Hnodup' : NoDup (map fst qs)).
  { apply Permutation_NoDup with (map fst ps); [|assumption].
    now apply Permutation_map. }
  destruct (lookupProp key ps) as [v|] eqn:Hps.
  - apply lookupProp_In in Hps.
    rewrite (lookupProp_unique key v qs Hnodup').
    + constructor. apply SE_same.
    + now apply Permutation_in with ps.
  - rewrite lookupProp_none; [constructor|].
    intros Hin. apply in_map_iff in Hin. destruct Hin as [[k v] [Hk Hin]].
    cbn in Hk. subst k.
    apply Permutation_in with (l' := ps) in Hin; [|now apply Permutation_sym].
    rewrite (lookupProp_unique key v ps Hnodup Hin) in Hps. discriminate.
Qed.


Lemma optionRel_trans {A : Type} (R : A -> A -> Prop) x y z :
  OptionRel R x y -> OptionRel R y z ->
  (forall a b c, x = Some a -> R a b -> R b c -> R a c) ->
  OptionRel R x z.
Proof.
  destruct 1; inversion 1; subst; intros Htrans; constructor; eauto.
Qed.



Lemma structEq_trans_items xs :
  Forall (fun x => forall y z, StructEq x y -> StructEq y z -> StructEq x z)
         xs ->
  forall ys zs,
    Forall2 StructEq xs ys -> Forall2 StructEq ys zs -> Forall2 StructEq xs zs.
Proof.
  induction 1 as [|x xs Hx _ IH]; intros ys zs Hxy Hyz;
    inversion Hxy; subst; inversion Hyz; subst; constructor; eauto.
Qed.

Lemma structEq_trans a :
  forall b c, StructEq a b -> StructEq b c -> StructEq a c.
Proof.
  induction a as [| | b0 | n0 | s0 | d0 | z0 | f0 | xs IH | proto ps IH]
    using JsValue_deep_ind; intros b c Hab Hbc;
    inversion Hab as [|? ys Hitems|? ? qs Hprops]; subst; try assumption.
  - inversion Hbc as [|? zs Hitems'|]; subst; [assumption|].
    apply SE_array. now apply structEq_trans_items with ys.
  - inversion Hbc as [| |? ? rs Hprops']; subst; [assumption|].
    apply SE_object. intros key.
    apply optionRel_trans with (lookupProp key qs);
      [apply Hprops|apply Hprops'|].
    intros x y z Hx Hxy Hyz. rewrite Forall_forall in IH.
    exact (IH (key, x) (lookupProp_In _ _ _ Hx) y z Hxy Hyz).
Qed.

(** ** The converter *)

(** With validation off the converter is the bare engine pipeline. *)
Lemma jsonToAutomerge_unchecked (E : Engine) json options :
  truthy (validateJson options) = false ->
  jsonToAutomerge E json options = createAndSave E json (actor options).
Proof. unfold jsonToAutomerge. now intros ->. Qed.

Lemma jsonToAutomerge_valid (E : Engine) json options :
  isValidJsonObject json = true ->
  jsonToAutomerge E json options = createAndSave E json (actor options).
Proof.
  unfold jsonToAutomerge. intros ->. now rewrite andb_false_r.
Qed.

(** What a successful [createAndSave] went through. *)
Lemma createAndSave_ok (E : Engine) json actorId w binary :
  outcome (createAndSave E json actorId w) = inr binary ->
  exists w1 doc w2,
    A_from E json actorId w = (w1, inr doc) /\
    A_save E doc w1 = (w2, inr binary).
Proof.
  unfold createAndSave, bind, engineCall.
  destruct (A_from E json actorId w) as [w1 [cause|doc]] eqn:Hfrom; cbn;
    [discriminate|].
  destruct (A_save E doc w1) as [w2 [cause|bytes]] eqn:Hsave; cbn;
    [discriminate|].
  intros [= ->]. now exists w1, doc, w2.
Qed.

Lemma createAndSave_run (E : Engine) json actorId w w1 doc w2 binary :
  A_from E json actorId w = (w1, inr doc) ->
  A_save E doc w1 = (w2, inr binary) ->
  createAndSave E json actorId w
  = {| calls := [CallFrom json actorId; CallSave]; world := w2;
       outcome := inr binary |}.
Proof.
  intros Hfrom Hsave. unfold createAndSave, bind, engineCall.
  rewrite Hfrom. cbn. now rewrite Hsave.
Qed.

Lemma jsonToAutomerge_ok (E : Engine) json options w binary :
  outcome (jsonToAutomerge E json options w) = inr binary ->
  exists w1 doc w2,
    A_from E json (actor options) w = (w1, inr doc) /\
    A_save E doc w1 = (w2, inr binary).
Proof.
  unfold jsonToAutomerge.
  destruct (truthy _ && negb _); [discriminate|].
  apply createAndSave_ok.
Qed.

(** C3. For every value the validator rejects, encoding with
    [validateJson: true] throws the validation error, whose message says
    "must be a plain object or array", and no engine call is made; with
    [validateJson] absent or false the same call validates nothing (it is
    the bare engine pipeline) and, when the engine accepts the value,
    returns the saved bytes, which are not empty. *)
Theorem validation_gating (E : Engine) (json : JsValue)
    (actorId : option string) (w : World E) :
  isValidJsonObject json = false ->
  saveNonEmpty E ->
  jsonToAutomerge E json {| actor := actorId; validateJson := Some true |} w
  = {| calls := []; world := w;
       outcome := inl (ValidationError invalidJsonMessage) |}
  /\ includes invalidJsonMessage "must be a plain object or array" = true
  /\ (forall flag, flag = None \/ flag = Some false ->
        jsonToAutomerge E json {| actor := actorId; validateJson := flag |} w
        = createAndSave E json actorId w
        /\ (forall w1 doc w2 binary,
              A_from E json actorId w = (w1, inr doc) ->
              A_save E doc w1 = (w2, inr binary) ->
              outcome (jsonToAutomerge E json
                         {| actor := actorId; validateJson := flag |} w)
              = inr binary
              /\ binary <> [])).
Proof.
  intros Hinvalid Hnonempty. split; [|split].
  - unfold jsonToAutomerge. cbn. now rewrite Hinvalid.
  - reflexivity.
  - intros flag Hflag.
    assert (Hoff : jsonToAutomerge E json
                     {| actor := actorId; validateJson := flag |}
                   = createAndSave E json actorId).
    { apply jsonToAutomerge_unchecked. now destruct Hflag as [-> | ->]. }
    split; [now rewrite Hoff|].
    intros w1 doc w2 binary Hfrom Hsave. split.
    + rewrite Hoff. now rewrite (createAndSave_run _ _ _ _ _ _ _ _ Hfrom Hsave).
    + exact (Hnonempty _ _ _ _ Hsave).
Qed.

(** ** The small engine meets the contract *)

Module MiniFacts.
Import Mini.

Lemma firstn_length_app {A : Type} (xs ys : list A) :
  firstn (List.length xs) (xs ++ ys) = xs.
Proof. induction xs as [|x xs IH]; cbn; [now destruct ys|now rewrite IH]. Qed.

Lemma skipn_length_app {A : Type} (xs ys : list A) :
  skipn (List.length xs) (xs ++ ys) = ys.
Proof. induction xs as [|x xs IH]; cbn; [reflexivity|exact IH]. Qed.

Lemma asFlagList_sound items flags :
  asFlagList items = Some flags -> items = map flagValue flags.
Proof.
  revert flags. induction items as [|item rest IH]; cbn; intros flags.
  - now intros [= <-].
  - destruct item; try discriminate;
      destruct (asFlagList rest) as [fs|]; try discriminate;
      intros [= <-]; cbn; now rewrite (IH fs eq_refl).
Qed.

Lemma asFlags_sound json flags :
  asFlags json = Some flags -> json = flagsValue flags.
Proof.
  unfold asFlags, flagsValue.
  destruct json as [| | | | | | | |items|proto props]; try discriminate.
  destruct proto as [|c]; try discriminate.
  destruct c; try discriminate.
  destruct props as [|[key value] rest]; try discriminate.
  destruct value; try discriminate.
  destruct rest; try discriminate.
  destruct (String.eqb key "flags") eqn:Hkey; try discriminate.
  apply String.eqb_eq in Hkey. subst key.
  intros H. now rewrite (asFlagList_sound _ _ H).
Qed.

Lemma flagsOfBytes_encoded flags :
  flagsOfBytes (map byteOfFlag flags) = Some flags.
Proof.
  induction flags as [|flag rest IH]; cbn; [reflexivity|].
  rewrite IH. now destruct flag as [[|]|].
Qed.

Lemma load_saved doc actorId w0 w1 binary w :
  save doc w0 = (w1, inr binary) ->
  actorProblem actorId = None ->
  load binary actorId w = (w, inr doc).
Proof.
  unfold save, load. intros Hsave ->.
  destruct (Byte.of_nat (List.length (docActor doc))) as [n|] eqn:Hn;
    [|discriminate].
  injection Hsave as _ <-.
  apply Byte.to_of_nat in Hn.
  cbn [magic app]. cbn [byteEqb Byte.to_nat Nat.eqb andb].
  rewrite Hn.
  assert (Hle : Nat.leb (List.length (docActor doc))
                  (List.length (docActor doc ++ map byteOfFlag (docFlags doc)))
                = true).
  { apply Nat.leb_le. rewrite length_app. lia. }
  rewrite Hle, skipn_length_app, firstn_length_app, flagsOfBytes_encoded.
  now destruct doc.
Qed.

Lemma from_actor_ok json actorId w0 w1 doc :
  from json actorId w0 = (w1, inr doc) -> actorProblem actorId = None.
Proof.
  unfold from, resolveActor, actorProblem.
  destruct actorId as [s|]; [|reflexivity].
  now destruct (validActor s).
Qed.

Lemma from_flags json actorId w0 w1 doc :
  from json actorId w0 = (w1, inr doc) -> json = flagsValue (docFlags doc).
Proof.
  unfold from. destruct (resolveActor actorId w0) as [w' [cause|bytes]];
    [discriminate|].
  destruct (asFlags json) as [flags|] eqn:Hflags; [|discriminate].
  intros [= _ <-]. cbn. now apply asFlags_sound.
Qed.

Lemma engine_saveLoadInverse : saveLoadInverse engine.
Proof.
  intros json actorId w0 w1 doc w2 w3 binary Hfrom Hsave w4.
  exists w4, doc. split; [|apply SE_same].
  exact (load_saved _ _ _ _ _ _ Hsave (from_actor_ok _ _ _ _ _ Hfrom)).
Qed.

Lemma engine_seededWith : seededWith engine.
Proof.
  intros json actorId w0 w1 doc _ Hfrom. cbn in *.
  rewrite (from_flags _ _ _ _ _ Hfrom). apply SE_same.
Qed.

Lemma engine_saveNonEmpty : saveNonEmpty engine.
Proof.
  intros doc w0 w1 binary. cbn. unfold save.
  destruct (Byte.of_nat _); [|discriminate].
  intros [= _ <-]. discriminate.
Qed.

Lemma flagsValue_isJson flags : IsJsonValue (flagsValue flags).
Proof.
  unfold flagsValue. constructor.
  - cbn. constructor; [intros []|constructor].
  - constructor; [|constructor]. constructor.
    induction flags as [|[b|] rest IH]; cbn; repeat constructor; exact IH.
Qed.

Lemma sampleJson_isJson : IsJsonValue sampleJson.
Proof. apply flagsValue_isJson. Qed.

End MiniFacts.

(** With validation on, [{ flags: [true, null] }] is refused before the
    engine is called; with validation absent the small engine stores it in
    eight bytes. *)
Lemma validation_gating_witness :
  jsonToAutomerge Mini.engine Mini.sampleWithNull
    {| actor := None; validateJson := Some true |} 0
  = {| calls := []; world := 0;
       outcome := inl (ValidationError invalidJsonMessage) |}
  /\ outcome (jsonToAutomerge Mini.engine Mini.sampleWithNull
               {| actor := None; validateJson := None |} 0)
     = inr [x85; x6f; x4a; x83; x01; x00; x01; x02].
Proof.
  destruct (validation_gating Mini.engine Mini.sampleWithNull None 0
              eq_refl MiniFacts.engine_saveNonEmpty) as [Hon [_ Hoff]].
  split; [exact Hon|].
  destruct (Hoff None (or_introl eq_refl)) as [_ Hrun].
  exact (proj1 (Hrun 1 _ 1 _ eq_refl eq_refl)).
Defined.

(** What [automergeToJson] does with the engine's answer. *)
Lemma automergeToJson_loaded (E : Engine) binary options w w' doc :
  A_load E binary (actor options) w = (w', inr doc) ->
  automergeToJson E binary options w
  = {| calls := [CallLoad binary (actor options)]; world := w';
       outcome := inr (materialize E doc) |}.
Proof.
  intros Hload. unfold automergeToJson, bind, engineCall, ret.
  now rewrite Hload.
Qed.

Lemma automergeToJson_refused (E : Engine) binary options w w' cause :
  A_load E binary (actor options) w = (w', inl cause) ->
  automergeToJson E binary options w
  = {| calls := [CallLoad binary (actor options)]; world := w';
       outcome := inl (DecodeError cause) |}.
Proof.
  intros Hload. unfold automergeToJson, bind, engineCall, ret.
  now rewrite Hload.
Qed.

Module RootMapFacts.
Import RootMap.









End RootMapFacts.




(** [automergeToJson] is one call to [A.load], whose verdict it passes
    on. *)
Lemma automergeToJson_run (E : Engine) binary options w :
  automergeToJson E binary options w
  = let (w', r) := A_load E binary (actor options) w in
    {| calls := [CallLoad binary (actor options)]; world := w';
       outcome := match r with
                  | inl cause => inl (DecodeError cause)
                  | inr doc => inr (materialize E doc)
                  end |}.
Proof.
  unfold automergeToJson, bind, engineCall, ret.
  now destruct (A_load E binary (actor options) w) as [w' [cause|doc]].
Qed.

(** C5, as the code has it.  [automergeToJson] makes no check of its own:
    it is one call to [A.load], and it fails exactly when the engine
    refuses the bytes, with the decode error that carries the engine's
    cause.  So zero bytes, which the engine loads as the empty document
    (fixtures, line 94), are not rejected: on the engine with a map at
    the root the call returns [{}], where the tests "rejects empty binary
    data" and "handles empty files" expect an exception.  The bytes
    1 2 3 4 5 and the truncated header of the fixtures, which the engine
    refuses, are rejected. *)
Theorem binary_rejection :
  (forall (E : Engine) binary options w0 e,
     outcome (automergeToJson E binary options w0) = inl e <->
     exists w1 cause,
       A_load E binary (actor options) w0 = (w1, inl cause) /\
       e = DecodeError cause)
  /\ (forall (E : Engine) binary options w0,
        calls (automergeToJson E binary options w0)
        = [CallLoad binary (actor options)])
  /\ (forall w,
        automergeToJson RootMap.engine [] emptyOptions w
        = {| calls := [CallLoad [] None]; world := w;
             outcome := inr (objectLiteral []) |})
  /\ (forall w,
        outcome (automergeToJson RootMap.engine [x01; x02; x03; x04; x05]
                   emptyOptions w)
        = inl (DecodeError "invalid magic bytes"))
  /\ (forall w,
        outcome (automergeToJson RootMap.engine [x85; x01; x00]
                   emptyOptions w)
        = inl (DecodeError "not enough input")).
Proof.
  split; [|split; [|repeat split]].
  - intros E binary options w0 e. rewrite automergeToJson_run.
    destruct (A_load E binary (actor options) w0) as [w1 [cause|doc]]; cbn.
    + split.
      * intros [= <-]. now exists w1, cause.
      * now intros (w1' & cause' & [= <- <-] & ->).
    + split.
      * discriminate.
      * now intros (w1' & cause' & [=] & _).
  - intros E binary options w0. rewrite automergeToJson_run.
    now destruct (A_load E binary (actor options) w0) as [w1 r].
Qed.

(** ** The binary probes *)






(** ** Determinism *)

Section Blind.
Context {W : Type}.


Lemma blind_throw {A : Type} (e : Exn) : blind (@throw W A e).
Proof. intros w1 w2. now split. Qed.



End Blind.








(** ** The validator terminates on acyclic input *)

Section HeapValidator.
Variable heap : Heap.

Lemma unfold_items items :
  (forall item, In item items -> exists tree, Unfolds heap item tree) ->
  exists trees, UnfoldsItems heap items trees.
Proof.
  induction items as [|item rest IH]; intros Hall.
  - exists []. constructor.
  - destruct (Hall item (or_introl eq_refl)) as [tree Htree].
    destruct IH as [trees Htrees].
    { intros other Hin. apply Hall. now right. }
    exists (tree :: trees). now constructor.
Qed.

Lemma unfold_props props :
  (forall key item, In (key, item) props ->
                    exists tree, Unfolds heap item tree) ->
  exists tprops, UnfoldsProps heap props tprops.
Proof.
  induction props as [|[key item] rest IH]; intros Hall.
  - exists []. constructor.
  - destruct (Hall key item (or_introl eq_refl)) as [tree Htree].
    destruct IH as [tprops Htprops].
    { intros k other Hin. apply (Hall k). now right. }
    exists ((key, tree) :: tprops). now constructor.
Qed.

(** An acyclic value denotes a finite tree. *)
Lemma acyclic_unfolds value :
  Acyclic heap value -> exists tree, Unfolds heap value tree.
Proof.
  induction 1 as [value _ IH].
  destruct value as [| | b | n | s | d | z | f | r];
    try (eexists; constructor; fail).
  destruct (heap r) as [items|proto props] eqn:Hr.
  - destruct (unfold_items items) as [trees Htrees].
    { intros item Hin. apply IH. now apply Child_item with items. }
    exists (JArray trees). now apply U_array with items.
  - destruct (unfold_props props) as [tprops Htprops].
    { intros key item Hin. apply IH.
      now apply Child_prop with proto props key. }
    exists (JObject proto tprops). now apply U_object with props.
Qed.

(** Leaves keep their kind when a value is unfolded. *)
Lemma unfolds_isObjectFunction value tree :
  Unfolds heap value tree ->
  isObjectFunctionH value = isObjectFunction tree.
Proof. now destruct 1. Qed.

Lemma unfolds_isUndefined value tree :
  Unfolds heap value tree -> isUndefinedH value = isUndefined tree.
Proof. now destruct 1. Qed.

Lemma unfolds_lookup key props tprops :
  UnfoldsProps heap props tprops ->
  match lookupPropH key props, lookupProp key tprops with
  | Some value, Some tree => Unfolds heap value tree
  | None, None => True
  | _, _ => False
  end.
Proof.
  induction 1 as [|k item tree props tprops Hitem _ IH]; cbn; [exact I|].
  now destruct (String.eqb key k).
Qed.

Lemma unfolds_constructor proto props tprops :
  UnfoldsProps heap props tprops ->
  Unfolds heap (getConstructorH proto props) (getConstructor proto tprops).
Proof.
  intros Hprops. unfold getConstructorH, getConstructor.
  pose proof (unfolds_lookup "constructor" _ _ Hprops) as Hlookup.
  destruct (lookupPropH "constructor" props),
           (lookupProp "constructor" tprops); try contradiction;
    [assumption|].
  destruct proto; constructor.
Qed.

(** From some depth on, the bounded validator returns what the
    validator on trees returns. *)
Lemma unfolds_validated :
  (forall value tree,
     Unfolds heap value tree ->
     exists depth, forall d, depth <= d ->
       isValidJsonObjectOn heap d value = Some (isValidJsonObject tree))
  /\ (forall items trees,
        UnfoldsItems heap items trees ->
        exists depth, forall d, depth <= d ->
          everyOn (isValidJsonObjectOn heap d) items
          = Some (forallb isValidJsonObject trees))
  /\ (forall props tprops,
        UnfoldsProps heap props tprops ->
        UnfoldsProps heap props tprops /\
        exists depth, forall d, depth <= d ->
          everyOn (isValidJsonObjectOn heap d) (map snd props)
          = Some (forallb (fun kv => isValidJsonObject (snd kv)) tprops)).
Proof.
  apply Unfolds_mutind.
  1-8: intros; exists 1; intros [|k] Hk; [lia|reflexivity].
  - intros r items trees Hr _ [depth IH].
    exists (S depth). intros [|d] Hd; [lia|].
    cbn. rewrite Hr. apply IH. lia.
  - intros r proto props tprops Hr _ [Hprops [depth IH]].
    exists (S depth). intros [|d] Hd; [lia|].
    cbn. rewrite Hr.
    pose proof (unfolds_constructor proto _ _ Hprops) as Hctor.
    rewrite (unfolds_isObjectFunction _ _ Hctor),
            (unfolds_isUndefined _ _ Hctor).
    destruct (negb _ && negb _); [reflexivity|]. apply IH. lia.
  - exists 0. reflexivity.
  - intros item tree items trees _ [d1 IH1] _ [d2 IH2].
    exists (Nat.max d1 d2). intros d Hd. cbn.
    rewrite IH1 by lia. destruct (isValidJsonObject tree); [|reflexivity].
    apply IH2. lia.
  - split; [constructor|]. exists 0. reflexivity.
  - intros key item tree props tprops Hitem [d1 IH1] _ [Hprops [d2 IH2]].
    split; [now constructor|].
    exists (Nat.max d1 d2). intros d Hd. cbn.
    rewrite IH1 by lia. destruct (isValidJsonObject tree); [|reflexivity].
    apply IH2. lia.
Qed.
End HeapValidator.

(** The self-referential object of the tests: the recursion never comes
    back, whatever depth it is allowed. *)
Lemma circular_never_returns :
  forall depth, isValidJsonObjectOn circularHeap depth (HRef 0) = None.
Proof.
  induction depth as [|d IH]; [reflexivity|].
  cbn. destruct d as [|d']; [reflexivity|].
  cbn in IH |- *. now rewrite IH.
Qed.

Lemma leaf_acyclic heap value :
  (forall r, value <> HRef r) -> Acyclic heap value.
Proof.
  intros Hleaf. constructor. intros child Hchild.
  destruct Hchild as [r ? ? _ _|r ? ? ? ? _ _]; now elim (Hleaf r).
Qed.

(** The self-referential object is not acyclic. *)
Lemma circular_not_acyclic : ~ Acyclic circularHeap (HRef 0).
Proof.
  intros Hacc. remember (HRef 0) as value eqn:Hvalue.
  induction Hacc as [value _ IH]. subst value.
  apply (IH (HRef 0)); [|reflexivity].
  apply Child_prop with (ProtoOf CObject)
    [("name", HString "test"); ("self", HRef 0)] "self"; [reflexivity|].
  right. now left.
Qed.

(** A value that denotes a finite tree is acyclic. *)
Lemma unfolds_acyclic heap :
  (forall value tree, Unfolds heap value tree -> Acyclic heap value)
  /\ (forall items trees,
        UnfoldsItems heap items trees ->
        forall item, In item items -> Acyclic heap item)
  /\ (forall props tprops,
        UnfoldsProps heap props tprops ->
        forall key item, In (key, item) props -> Acyclic heap item).
Proof.
  apply Unfolds_mutind.
  1-8: intros; now apply leaf_acyclic.
  - intros r items trees Hr _ IH. constructor. intros child Hchild.
    inversion Hchild as [r' items' item Hr' Hin
                        |r' proto props key item Hr' Hin];
      subst; rewrite Hr in Hr'; [|discriminate].
    injection Hr' as <-. now apply IH.
  - intros r proto props tprops Hr _ IH. constructor. intros child Hchild.
    inversion Hchild as [r' items' item Hr' Hin
                        |r' proto' props' key item Hr' Hin];
      subst; rewrite Hr in Hr'; [discriminate|].
    injection Hr' as <- <-. now apply (IH key).
  - intros item [].
  - intros item tree items trees _ IH1 _ IH2 other [<-|Hin];
      [assumption|now apply IH2].
  - intros key item [].
  - intros key item tree props tprops _ IH1 _ IH2 k other [[= <- <-]|Hin];
      [assumption|now apply (IH2 k)].
Qed.

(** A deeper call budget never changes an answer already given. *)
Lemma everyOn_monotone (f g : HeapValue -> option bool) items answer :
  (forall item b, f item = Some b -> g item = Some b) ->
  everyOn f items = Some answer -> everyOn g items = Some answer.
Proof.
  intros Hfg. induction items as [|item rest IH]; cbn; [trivial|].
  destruct (f item) as [[|]|] eqn:Hf; try discriminate;
    rewrite (Hfg _ _ Hf); auto.
Qed.

Lemma isValidJsonObjectOn_step heap depth :
  forall value answer,
    isValidJsonObjectOn heap depth value = Some answer ->
    isValidJsonObjectOn heap (S depth) value = Some answer.
Proof.
  induction depth as [|d IH]; intros value answer; [discriminate|].
  cbn [isValidJsonObjectOn].
  destruct value; trivial.
  destruct (heap r) as [items|proto props].
  - apply everyOn_monotone. exact IH.
  - destruct (negb _ && negb _); [trivial|].
    apply everyOn_monotone. exact IH.
Qed.

Lemma isValidJsonObjectOn_monotone heap d d' value answer :
  d <= d' ->
  isValidJsonObjectOn heap d value = Some answer ->
  isValidJsonObjectOn heap d' value = Some answer.
Proof.
  induction 1 as [|d' _ IH]; [trivial|].
  intros H. now apply isValidJsonObjectOn_step, IH.
Qed.

(** C7. On every acyclic input the validator terminates and returns a
    boolean, always the same one (the one the validator on the unfolded
    tree computes); it throws nothing and changes nothing, its only
    result being that boolean.  Without acyclicity termination is lost:
    on the self-referential object of the tests the recursion never
    returns. *)
Theorem validator_total :
  (forall heap value,
     Acyclic heap value ->
     exists answer,
       (exists depth, forall d, depth <= d ->
          isValidJsonObjectOn heap d value = Some answer)
       /\ (forall d b, isValidJsonObjectOn heap d value = Some b ->
                       b = answer)
       /\ (exists tree, Unfolds heap value tree /\
                        answer = isValidJsonObject tree))
  /\ (~ Acyclic circularHeap (HRef 0)
      /\ forall depth,
           isValidJsonObjectOn circularHeap depth (HRef 0) = None).
Proof.
  split.
  - intros heap value Hacyclic.
    destruct (acyclic_unfolds heap value Hacyclic) as [tree Htree].
    destruct (proj1 (unfolds_validated heap) value tree Htree)
      as [depth Hdepth].
    exists (isValidJsonObject tree). split; [|split].
    + now exists depth.
    + intros d b Hd.
      pose proof (isValidJsonObjectOn_monotone heap d (Nat.max d depth)
                    value b (Nat.le_max_l _ _) Hd) as Hup.
      rewrite (Hdepth (Nat.max d depth) (Nat.le_max_r _ _)) in Hup.
      now injection Hup.
    + now exists tree.
  - split; [exact circular_not_acyclic|exact circular_never_returns].
Qed.

Lemma sampleHeap_acyclic : Acyclic sampleHeap (HRef 0).
Proof.
  constructor. intros child Hchild.
  inversion Hchild as [r items item Hr Hin|r proto props key item Hr Hin];
    subst.
  - discriminate Hr.
  - injection Hr as <- <-.
    destruct Hin as [[= <- <-]|[[= <- <-]|[]]].
    + now apply leaf_acyclic.
    + constructor. intros leaf Hleaf.
      inversion Hleaf as [r items item Hr Hin|r proto props key item Hr Hin];
        subst; [|discriminate Hr].
      injection Hr as <-.
      destruct Hin as [<-|[<-|[]]]; now apply leaf_acyclic.
Qed.

(** On [{ name: "test", items: [1, true] }] the validator returns true
    within three nested calls, and every answer it gives is that one. *)
Lemma validator_total_witness :
  isValidJsonObjectOn sampleHeap 3 (HRef 0) = Some true
  /\ exists answer,
       (exists depth, forall d, depth <= d ->
          isValidJsonObjectOn sampleHeap d (HRef 0) = Some answer)
       /\ (forall d b, isValidJsonObjectOn sampleHeap d (HRef 0) = Some b ->
                       b = answer)
       /\ (exists tree, Unfolds sampleHeap (HRef 0) tree /\
                        answer = isValidJsonObject tree).
Proof.
  split; [reflexivity|].
  exact (proj1 validator_total sampleHeap (HRef 0) sampleHeap_acyclic).
Defined.

(** ** Further properties of the source *)

(** X1. An object with an own enumerable property named [constructor] is
    never valid: either the property is neither [Object] nor [undefined]
    and the test of line 118 rejects the object, or it is one of the two
    and [every] rejects it as a property value. *)
Theorem own_constructor_rejected proto props value :
  lookupProp "constructor" props = Some value ->
  isValidJsonObject (JObject proto props) = false.
Proof. apply constructor_prop_invalid. Qed.

(** The object that [JSON.parse('{"constructor":"x"}')] builds. *)
Lemma own_constructor_rejected_witness :
  isValidJsonObject (objectLiteral [("constructor", JString "x")]) = false.
Proof.
  exact (own_constructor_rejected (ProtoOf CObject)
           [("constructor", JString "x")] (JString "x") eq_refl).
Defined.



(** X3. Asking for validation changes nothing for a value that passes
    it. *)
Theorem validation_is_transparent (E : Engine) json actorId :
  isValidJsonObject json = true ->
  jsonToAutomerge E json {| actor := actorId; validateJson := Some true |}
  = jsonToAutomerge E json {| actor := actorId; validateJson := None |}.
Proof.
  intros Hvalid.
  now rewrite (jsonToAutomerge_valid E json _ Hvalid),
              (jsonToAutomerge_unchecked E json
                 {| actor := actorId; validateJson := None |} eq_refl).
Qed.

Lemma validation_is_transparent_witness :
  jsonToAutomerge Mini.engine Mini.sampleJson
    {| actor := None; validateJson := Some true |}
  = jsonToAutomerge Mini.engine Mini.sampleJson
      {| actor := None; validateJson := None |}.
Proof.
  exact (validation_is_transparent Mini.engine Mini.sampleJson None eq_refl).
Defined.

(** X4. The converter calls the engine in a fixed order: [jsonToAutomerge]
    calls [A.from] with the value and actor it was given and then, if
    that returned, [A.save]; [automergeToJson] calls [A.load] once, with
    the bytes and actor it was given. *)
Theorem engine_call_discipline (E : Engine) :
  (forall json options w,
     let run := jsonToAutomerge E json options w in
     calls run = []
     \/ calls run = [CallFrom json (actor options)]
     \/ calls run = [CallFrom json (actor options); CallSave])
  /\ (forall binary options w,
        calls (automergeToJson E binary options w)
        = [CallLoad binary (actor options)]).
Proof.
  split.
  - intros json options w. cbv zeta. unfold jsonToAutomerge.
    destruct (truthy _ && negb _); [now left|right].
    unfold createAndSave, bind, engineCall.
    destruct (A_from E json (actor options) w) as [w1 [cause|doc]]; cbn;
      [now left|right].
    now destruct (A_save E doc w1) as [w2 [cause|bytes]].
  - intros binary options w. unfold automergeToJson, bind, engineCall, ret.
    now destruct (A_load E binary (actor options) w) as [w1 [cause|doc]].
Qed.

(** ** File operations *)

(** X5. Writing a JSON value to a file and reading the file back, under
    the same options, returns a structurally equal value: against an
    engine that meets its contract and a file system that reads back what
    it wrote. *)
Theorem file_roundtrip (E : Engine) (FS : FileSystem) (json : JsValue)
    (filePath : string) (options : ConversionOptions) (s : HostOf E FS) :
  saveLoadInverse E ->
  seededWith E ->
  readsBackWrites FS ->
  IsJsonValue json ->
  verdict (writeJsonAsAutomerge E FS json filePath options s) = inr tt ->
  exists restored,
    verdict (readAutomergeAsJson E FS filePath options
               (host (writeJsonAsAutomerge E FS json filePath options s)))
    = inr restored
    /\ StructEq restored json.
Proof.
  intros Hinverse Hseeded Hfiles Hjson.
  unfold writeJsonAsAutomerge, readAutomergeAsJson, hbind, liftConverter.
  cbn.
  destruct (outcome (jsonToAutomerge E json options (engineWorld s)))
    as [e|binary] eqn:Hconv; cbn; [discriminate|].
  destruct (jsonToAutomerge_ok _ _ _ _ _ Hconv)
    as (wa & doc & wb & Hfrom & Hsave).
  unfold fileCall. cbn.
  destruct (Deno_writeFile FS filePath binary (fileSystem s))
    as [files' [cause|[]]] eqn:Hwritten; cbn; [discriminate|].
  intros _.
  destruct (Hfiles _ _ _ _ Hwritten) as (files'' & Hread).
  rewrite Hread. cbn.
  destruct (Hinverse _ _ _ _ _ _ _ _ Hfrom Hsave
              (world (jsonToAutomerge E json options (engineWorld s))))
    as (w2 & doc' & Hload & Hsame).
  exists (materialize E doc'). split.
  - now rewrite (automergeToJson_loaded _ _ _ _ _ _ Hload).
  - apply structEq_trans with (materialize E doc); [exact Hsame|].
    exact (Hseeded _ _ _ _ _ Hjson Hfrom).
Qed.

Module SimpleFilesFacts.
Import SimpleFiles.

Lemma fs_readsBackWrites : readsBackWrites fs.
Proof.
  intros path data files files'. cbn. unfold writeFile, readFile.
  destruct (String.eqb path "") eqn:Hpath; [discriminate|].
  intros [= <-]. exists ((path, data) :: files). cbn.
  now rewrite String.eqb_refl.
Qed.

End SimpleFilesFacts.

(** [{ flags: [true, false, true] }] written to [doc.automerge] and read
    back on the small engine. *)
Lemma file_roundtrip_witness :
  exists restored,
    verdict (readAutomergeAsJson Mini.engine SimpleFiles.fs "doc.automerge"
               Mini.sampleOptions
               (host (writeJsonAsAutomerge Mini.engine SimpleFiles.fs
                        Mini.sampleJson "doc.automerge" Mini.sampleOptions
                        (SimpleFiles.emptyHost 0))))
    = inr restored
    /\ StructEq restored Mini.sampleJson.
Proof.
  exact (file_roundtrip Mini.engine SimpleFiles.fs Mini.sampleJson
           "doc.automerge" Mini.sampleOptions (SimpleFiles.emptyHost 0)
           MiniFacts.engine_saveLoadInverse MiniFacts.engine_seededWith
           SimpleFilesFacts.fs_readsBackWrites MiniFacts.sampleJson_isJson
           eq_refl).
Defined.

(** X6. [writeJsonAsAutomerge] touches the file system only after the
    conversion succeeded: it makes the engine calls of [jsonToAutomerge]
    and then, if that returned, one write of exactly the bytes returned
    to the path given; if the conversion throws, the exception is passed
    on and the file system is left as it was. *)
Theorem write_after_conversion (E : Engine) (FS : FileSystem)
    (json : JsValue) (filePath : string) (options : ConversionOptions)
    (s : HostOf E FS) :
  let conversion := jsonToAutomerge E json options (engineWorld s) in
  let run := writeJsonAsAutomerge E FS json filePath options s in
  match outcome conversion with
  | inl e =>
      verdict run = inl (Thrown (ConverterError e))
      /\ events run = map EngineEvent (calls conversion)
      /\ fileSystem (host run) = fileSystem s
  | inr binary =>
      events run
      = map EngineEvent (calls conversion) ++ [WriteFile filePath binary]
      /\ match Deno_writeFile FS filePath binary (fileSystem s) with
         | (files', inl cause) =>
             verdict run = inl (Thrown (IoError cause))
             /\ fileSystem (host run) = files'
         | (files', inr _) =>
             verdict run = inr tt /\ fileSystem (host run) = files'
         end
  end.
Proof.
  cbv zeta. unfold writeJsonAsAutomerge, hbind, liftConverter. cbn.
  destruct (outcome (jsonToAutomerge E json options (engineWorld s)))
    as [e|binary]; cbn; [now repeat split|].
  unfold fileCall. cbn.
  destruct (Deno_writeFile FS filePath binary (fileSystem s))
    as [files' [cause|[]]]; cbn; now split.
Qed.

(** X7. [readAutomergeAsJson] calls the engine only after the file was
    read, once, with exactly the bytes read and the actor given; if the
    read fails the I/O error is passed on, the engine is not called and
    its world is left as it was. *)
Theorem load_after_read (E : Engine) (FS : FileSystem)
    (filePath : string) (options : ConversionOptions) (s : HostOf E FS) :
  let run := readAutomergeAsJson E FS filePath options s in
  match Deno_readFile FS filePath (fileSystem s) with
  | (files', inl cause) =>
      verdict run = inl (Thrown (IoError cause))
      /\ events run = [ReadFile filePath]
      /\ engineWorld (host run) = engineWorld s
  | (files', inr binary) =>
      events run
      = [ReadFile filePath; EngineEvent (CallLoad binary (actor options))]
      /\ fileSystem (host run) = files'
      /\ verdict run
         = match outcome (automergeToJson E binary options (engineWorld s))
           with
           | inl e => inl (Thrown (ConverterError e))
           | inr value => inr value
           end
  end.
Proof.
  cbv zeta. unfold readAutomergeAsJson, hbind, fileCall.
  destruct (Deno_readFile FS filePath (fileSystem s))
    as [files' [cause|binary]]; cbn; [now repeat split|].
  unfold automergeToJson, bind, engineCall, ret.
  destruct (A_load E binary (actor options) (engineWorld s))
    as [w1 [cause|doc]]; cbn; now repeat split.
Qed.

(** ** The argument parser *)

Lemma lastOf_cons {A : Type} (value : A) values :
  lastOf (value :: values) = orElse (lastOf values) (Some value).
Proof.
  unfold lastOf. cbn. now destruct (rev values).
Qed.

Lemma isFlag_false word :
  isFlag word = false ->
  isEither word "-h" "--help" = false
  /\ isEither word "-i" "--input" = false
  /\ isEither word "-o" "--output" = false
  /\ isEither word "-a" "--actor" = false
  /\ isEither word "-v" "--validate" = false
  /\ isEither word "-t" "--test" = false.
Proof.
  unfold isFlag. intros H.
  do 5 (apply orb_false_iff in H; destruct H as [H ?]).
  now repeat split.
Qed.

Lemma truthyString_false s : truthyString s = false -> s = "".
Proof.
  unfold truthyString. intros H. apply negb_false_iff in H.
  now apply String.eqb_eq.
Qed.

(** A word passes every test for a flag. *)
Lemma parseLoop_word word rest command options :
  isFlag word = false ->
  parseLoop (word :: rest) command options
  = if negb (truthyString command) && negb (String.prefix "-" word)
    then parseLoop rest word options
    else parseLoop rest command options.
Proof.
  intros Hword.
  destruct (isFlag_false _ Hword) as (H1 & H2 & H3 & H4 & H5 & H6).
  cbn [parseLoop]. now rewrite H1, H2, H3, H4, H5, H6.
Qed.

(** The meaning of an argument vector, token by token. *)
Lemma meaning_help long tokens :
  meaning (THelp long :: tokens)
  = (fst (meaning tokens), setHelp (snd (meaning tokens))).
Proof. reflexivity. Qed.

Lemma meaning_validate long tokens :
  meaning (TValidate long :: tokens)
  = (fst (meaning tokens), setValidate (snd (meaning tokens))).
Proof. reflexivity. Qed.

Lemma meaning_test long tokens :
  meaning (TTest long :: tokens)
  = (fst (meaning tokens), setTest (snd (meaning tokens))).
Proof. reflexivity. Qed.

Lemma meaning_input long value tokens :
  meaning (TInput long value :: tokens)
  = (fst (meaning tokens),
     setInput (orElse (opt_input (snd (meaning tokens))) (Some value))
       (snd (meaning tokens))).
Proof.
  unfold meaning. cbn [fst snd opt_input]. unfold setInput. cbn.
  now rewrite lastOf_cons.
Qed.

Lemma meaning_output long value tokens :
  meaning (TOutput long value :: tokens)
  = (fst (meaning tokens),
     setOutput (orElse (opt_output (snd (meaning tokens))) (Some value))
       (snd (meaning tokens))).
Proof.
  unfold meaning. cbn [fst snd opt_output]. unfold setOutput. cbn.
  now rewrite lastOf_cons.
Qed.

Lemma meaning_actor long value tokens :
  meaning (TActor long value :: tokens)
  = (fst (meaning tokens),
     setActor (orElse (opt_actor (snd (meaning tokens))) (Some value))
       (snd (meaning tokens))).
Proof.
  unfold meaning. cbn [fst snd opt_actor]. unfold setActor. cbn.
  now rewrite lastOf_cons.
Qed.

Lemma meaning_word word tokens :
  meaning (TWord word :: tokens)
  = (if truthyString word && negb (String.prefix "-" word)
     then word else fst (meaning tokens),
     snd (meaning tokens)).
Proof.
  unfold meaning. cbn.
  now destruct (truthyString word && negb (String.prefix "-" word)).
Qed.

(** Both sides are records of options: compare them field by field. *)
Ltac options_equal :=
  repeat match goal with
         | o : CliOptions |- _ => destruct o
         end;
  unfold continueWith, meaning, orElse, flagSet, setInput, setOutput,
    setActor, setValidate, setTest, setHelp;
  cbn [fst snd opt_input opt_output opt_actor opt_validate opt_test
       opt_help];
  repeat match goal with
         | |- context [truthyString ?c] => destruct (truthyString c)
         | |- context [existsb ?f ?l] => destruct (existsb f l)
         | |- context [lastOf ?l] => destruct (lastOf l)
         | |- context [match ?x with Some _ => _ | None => _ end] =>
             destruct x
         end;
  reflexivity.

Lemma parseLoop_render tokens :
  forallb wellFormedToken tokens = true ->
  forall command options,
    parseLoop (render tokens) command options
    = continueWith command options (meaning tokens).
Proof.
  induction tokens as [|t tokens IH]; intros Hwf command options.
  - unfold meaning, continueWith. cbn.
    destruct (truthyString command) eqn:Hc; [now destruct options|].
    apply truthyString_false in Hc. subst. now destruct options.
  - cbn in Hwf. apply andb_true_iff in Hwf. destruct Hwf as [Ht Hwf].
    specialize (IH Hwf).
    destruct t as [long|long value|long value|long value|long|long|word].
    + rewrite meaning_help. destruct long; cbn; rewrite IH;
        options_equal.
    + rewrite meaning_input. destruct long; cbn; rewrite IH;
        options_equal.
    + rewrite meaning_output. destruct long; cbn; rewrite IH;
        options_equal.
    + rewrite meaning_actor. destruct long; cbn; rewrite IH;
        options_equal.
    + rewrite meaning_validate. destruct long; cbn; rewrite IH;
        options_equal.
    + rewrite meaning_test. destruct long; cbn; rewrite IH;
        options_equal.
    + cbn in Ht. apply negb_true_iff in Ht.
      cbn [render flat_map renderToken app].
      rewrite (parseLoop_word _ _ _ _ Ht), meaning_word.
      destruct (truthyString command) eqn:Hc; cbn [negb andb].
      * rewrite IH. unfold continueWith. now rewrite Hc.
      * destruct (String.prefix "-" word) eqn:Hdash; cbn [negb andb].
        -- rewrite IH, andb_false_r. unfold continueWith. now rewrite Hc.
        -- rewrite IH, andb_true_r. unfold continueWith. rewrite Hc.
           cbn [fst snd]. reflexivity.
Qed.

Lemma continueWith_start m : continueWith "" noOptions m = m.
Proof.
  destruct m as [command [i o a v t h]]. unfold continueWith, orElse. cbn.
  now destruct i, o, a, v, t, h.
Qed.

Lemma parseArgs_meaning_of_tokens tokens :
  forallb wellFormedToken tokens = true ->
  parseArgs (render tokens) = meaning tokens.
Proof.
  intros Hwf. unfold parseArgs.
  rewrite (parseLoop_render tokens Hwf). apply continueWith_start.
Qed.

(** X8. [parseArgs] reads an argument vector by its meaning.  For every
    vector made of flags, flags followed by their value, and words: the
    command is the first word that is not empty and has no leading dash;
    input, output and actor are the values of their last flag, whatever
    the value looks like (a value is never read as a flag or a command);
    validate, test and help are set exactly when their flag occurs. *)
Theorem parseArgs_meaning (tokens : list Token) :
  forallb wellFormedToken tokens = true ->
  parseArgs (render tokens) = meaning tokens.
Proof. apply parseArgs_meaning_of_tokens. Qed.

(** [-i -h --actor json2bin out.bin -v bin2json -i data.json]: the values
    [-h] and [json2bin] are values, [out.bin] is the command, the last
    input wins. *)
Lemma parseArgs_meaning_witness :
  parseArgs ["-i"; "-h"; "--actor"; "json2bin"; "out.bin"; "-v"; "bin2json";
             "-i"; "data.json"]
  = ("out.bin",
     {| opt_input := Some "data.json"; opt_output := None;
        opt_actor := Some "json2bin"; opt_validate := Some true;
        opt_test := None; opt_help := None |}).
Proof.
  exact (parseArgs_meaning
           [TInput false "-h"; TActor true "json2bin"; TWord "out.bin";
            TValidate false; TWord "bin2json"; TInput false "data.json"]
           eq_refl).
Defined.

(** Parsing goes from left to right: what is left after a well-formed
    prefix is parsed from the state the prefix leaves. *)
Lemma parseLoop_app tokens :
  forallb wellFormedToken tokens = true ->
  forall rest command options,
    parseLoop (render tokens ++ rest) command options
    = parseLoop rest (fst (parseLoop (render tokens) command options))
        (snd (parseLoop (render tokens) command options)).
Proof.
  induction tokens as [|t tokens IH]; intros Hwf rest command options;
    [reflexivity|].
  cbn in Hwf. apply andb_true_iff in Hwf. destruct Hwf as [Ht Hwf].
  specialize (IH Hwf).
  destruct t as [long|long value|long value|long value|long|long|word];
    try (destruct long; cbn; apply IH).
  cbn in Ht. apply negb_true_iff in Ht.
  cbn [render flat_map renderToken app].
  rewrite !(parseLoop_word _ _ _ _ Ht).
  destruct (negb (truthyString command) && negb (String.prefix "-" word));
    apply IH.
Qed.

Lemma parseLoop_dangling flag command options :
  isValueFlag flag = true ->
  parseLoop [flag] command options = (command, clearValue flag options).
Proof.
  unfold isValueFlag, clearValue. intros Hflag. cbn [parseLoop].
  destruct (isEither flag "-h" "--help") eqn:Hh.
  { unfold isEither in *. apply orb_true_iff in Hh.
    destruct Hh as [Hh|Hh]; apply String.eqb_eq in Hh; subst; discriminate. }
  destruct (isEither flag "-i" "--input"); [reflexivity|].
  destruct (isEither flag "-o" "--output"); [reflexivity|].
  destruct (isEither flag "-a" "--actor"); [reflexivity|discriminate].
Qed.

(** Every argument vector is a sequence of tokens, followed or not by a
    value flag left without its value. *)
Lemma tokenize_spec :
  forall n args, List.length args <= n ->
    forallb wellFormedToken (fst (tokenize args)) = true
    /\ render (fst (tokenize args)) ++ danglingArgs (snd (tokenize args))
       = args
    /\ match snd (tokenize args) with
       | Some flag => isValueFlag flag = true
       | None => True
       end.
Proof.
  induction n as [|n IH]; intros [|arg rest] Hlen; cbn in Hlen;
    try lia; try (now repeat split).
  assert (Hrest : List.length rest <= n) by lia.
  assert (Hsingle : forall t,
             wellFormedToken t = true -> renderToken t = [arg] ->
             forallb wellFormedToken
               (fst (let (tokens, dangling) := tokenize rest in
                     (t :: tokens, dangling))) = true
             /\ render (fst (let (tokens, dangling) := tokenize rest in
                             (t :: tokens, dangling)))
                ++ danglingArgs (snd (let (tokens, dangling) := tokenize rest in
                                      (t :: tokens, dangling)))
                = arg :: rest
             /\ match snd (let (tokens, dangling) := tokenize rest in
                           (t :: tokens, dangling)) with
                | Some flag => isValueFlag flag = true
                | None => True
                end).
  { intros t Hwf Hrender. destruct (IH rest Hrest) as (H1 & H2 & H3).
    destruct (tokenize rest) as [tokens dangling]. cbn in *.
    rewrite Hwf, H1, Hrender. cbn. rewrite H2. now repeat split. }
  assert (Hvalue : forall make,
             isValueFlag arg = true ->
             (forall value, renderToken (make value) = [arg; value]) ->
             (forall value, wellFormedToken (make value) = true) ->
             let result :=
               match rest with
               | [] => ([], Some arg)
               | value :: rest' =>
                   let (tokens, dangling) := tokenize rest' in
                   (make value :: tokens, dangling)
               end in
             forallb wellFormedToken (fst result) = true
             /\ render (fst result) ++ danglingArgs (snd result) = arg :: rest
             /\ match snd result with
                | Some flag => isValueFlag flag = true
                | None => True
                end).
  { intros make Hflag Hrender Hwf. cbv zeta.
    destruct rest as [|value rest']; [now repeat split|].
    cbn in Hrest. destruct (IH rest' ltac:(lia)) as (H1 & H2 & H3).
    destruct (tokenize rest') as [tokens dangling]. cbn in *.
    rewrite Hwf, H1, Hrender. cbn. rewrite H2. now repeat split. }
  cbn [tokenize].
  repeat match goal with
         | |- context [String.eqb arg ?flag] =>
             let Hflag := fresh "Hflag" in
             destruct (String.eqb arg flag) eqn:Hflag;
             [ apply String.eqb_eq in Hflag; subst arg;
               first [ now apply Hsingle
                     | now apply (Hvalue (TInput false))
                     | now apply (Hvalue (TInput true))
                     | now apply (Hvalue (TOutput false))
                     | now apply (Hvalue (TOutput true))
                     | now apply (Hvalue (TActor false))
                     | now apply (Hvalue (TActor true)) ]
             | ]
         end.
  apply Hsingle; [|reflexivity].
  cbn. unfold isFlag, isEither.
  now rewrite Hflag, Hflag0, Hflag1, Hflag2, Hflag3, Hflag4, Hflag5, Hflag6,
    Hflag7, Hflag8, Hflag9, Hflag10.
Qed.

Lemma parseArgs_by_tokens (args : list string) :
  parseArgs args
  = match tokenize args with
    | (tokens, None) => meaning tokens
    | (tokens, Some flag) =>
        (fst (meaning tokens), clearValue flag (snd (meaning tokens)))
    end.
Proof.
  destruct (tokenize_spec (List.length args) args (le_n _))
    as (Hwf & Hargs & Hflag).
  destruct (tokenize args) as [tokens [flag|]]; cbn in *.
  - rewrite <- Hargs at 1. unfold parseArgs.
    rewrite (parseLoop_app tokens Hwf), (parseLoop_render tokens Hwf),
      continueWith_start.
    now apply parseLoop_dangling.
  - rewrite app_nil_r in Hargs. rewrite <- Hargs at 1.
    now apply parseArgs_meaning_of_tokens.
Qed.

(** X9. What [parseArgs] returns on any argument vector whatever: the
    meaning of its tokens and, when the vector ends with [-i], [-o] or
    [-a] (or their long forms) left without a value, that option is
    [undefined] even if it was given before. *)
Theorem parseArgs_characterised (args : list string) :
  parseArgs args
  = match tokenize args with
    | (tokens, None) => meaning tokens
    | (tokens, Some flag) =>
        (fst (meaning tokens), clearValue flag (snd (meaning tokens)))
    end.
Proof. apply parseArgs_by_tokens. Qed.

(** X10. The command [parseArgs] returns never starts with a dash: an
    unknown option is never taken for the command. *)
Theorem parseArgs_command_no_dash (args : list string) :
  String.prefix "-" (fst (parseArgs args)) = false.
Proof.
  rewrite parseArgs_by_tokens.
  assert (H : forall tokens, String.prefix "-" (fst (meaning tokens)) = false).
  { intros tokens. unfold meaning. cbn [fst].
    destruct (find isCommandWord tokens) as [t|] eqn:Hfind; [|reflexivity].
    apply find_some in Hfind. destruct Hfind as [_ Hword].
    destruct t; try discriminate. cbn in Hword.
    apply andb_true_iff in Hword. destruct Hword as [_ Hword].
    now apply negb_true_iff in Hword. }
  destruct (tokenize args) as [tokens [flag|]]; apply H.
Qed.

(** ** Reading standard input *)

Lemma totalLength_from (chunks : list (list byte)) start :
  fold_left (fun acc chunk => acc + List.length chunk) chunks start
  = start + List.length (List.concat chunks).
Proof.
  revert start. induction chunks as [|chunk rest IH]; intros start; cbn.
  - lia.
  - rewrite IH, length_app. lia.
Qed.

Lemma firstn_exact {A : Type} (xs ys : list A) :
  firstn (List.length xs) (xs ++ ys) = xs.
Proof.
  induction xs as [|x xs IH]; cbn; [now destruct ys|now rewrite IH].
Qed.

Lemma skipn_zeros (done zs : list byte) n :
  skipn (List.length done + n) (done ++ repeat x00 n ++ zs) = zs.
Proof.
  induction done as [|x done IH]; cbn; [|exact IH].
  induction n as [|n IHn]; cbn; [reflexivity|exact IHn].
Qed.

(** While the chunks are copied, the buffer holds what was copied so far
    followed by as many zero bytes as are still to come. *)
Lemma copyChunks_done (chunks : list (list byte)) :
  forall done,
    copyChunks chunks
      (done ++ Uint8Array_new (List.length (List.concat chunks)))
      (List.length done)
    = Some (done ++ List.concat chunks).
Proof.
  induction chunks as [|chunk rest IH]; intros done;
    cbn [copyChunks List.concat].
  - reflexivity.
  - unfold Uint8Array_set, Uint8Array_new.
    rewrite length_app, repeat_length, length_app.
    replace (Nat.leb _ _) with true
      by (symmetry; apply Nat.leb_le; lia).
    rewrite firstn_exact, repeat_app, skipn_zeros.
    specialize (IH (done ++ chunk)).
    rewrite length_app, <- !app_assoc in IH. exact IH.
Qed.

Lemma combineChunks_concat chunks :
  combineChunks chunks = Some (List.concat chunks).
Proof.
  unfold combineChunks, totalLength. rewrite totalLength_from. cbn.
  exact (copyChunks_done chunks []).
Qed.

(** X11. [readStdin] returns the text of the chunks of standard input
    put end to end, in the order they came: the buffer it allocates is
    exactly as long as the chunks together, every chunk is copied at its
    place, and no copy falls outside the buffer. *)
Theorem readStdin_concat (E : Engine) (FS : FileSystem)
    (decode : list byte -> string) (s : HostOf E FS) :
  (forall chunks, combineChunks chunks = Some (List.concat chunks))
  /\ match Deno_stdin_chunks FS (fileSystem s) with
     | (files', inr chunks) =>
         verdict (readStdin E FS decode s) = inr (decode (List.concat chunks))
     | (files', inl cause) =>
         verdict (readStdin E FS decode s) = inl (Thrown (IoError cause))
     end.
Proof.
  split; [exact combineChunks_concat|].
  unfold readStdin, hbind, fileCall.
  destruct (Deno_stdin_chunks FS (fileSystem s)) as [files' [cause|chunks]];
    cbn; [reflexivity|].
  now rewrite combineChunks_concat.
Qed.

(** ** The commands *)

Section NeverExits.
Context {S : Type}.

Lemma neverExits_hret {A : Type} (a : A) : neverExits (@hret S A a).
Proof. intros s code. discriminate. Qed.

Lemma neverExits_hthrow {A : Type} error : neverExits (@hthrow S A error).
Proof. intros s code. discriminate. Qed.

Lemma neverExits_emit event : neverExits (@emit S event).
Proof. intros s code. discriminate. Qed.

Lemma neverExits_hbind {A B : Type} (m : Host S A) (k : A -> Host S B) :
  neverExits m -> (forall a, neverExits (k a)) -> neverExits (hbind m k).
Proof.
  intros Hm Hk s code. unfold hbind.
  destruct (verdict (m s)) as [stop|a] eqn:Hv; cbn.
  - intros [= ->]. exact (Hm s code Hv).
  - apply Hk.
Qed.

(** A handler that reports and exits with 1 leaves two ways to end. *)
Lemma htry_report {A : Type} (body : Host S A) (report : HostError -> Event)
    (s : S) :
  neverExits body ->
  (exists a, verdict (body s) = inr a
             /\ htry body (fun error => _ <~ emit (report error) ;; hexit 1) s
                = body s)
  \/ (exists error,
        verdict (body s) = inl (Thrown error)
        /\ htry body (fun error => _ <~ emit (report error) ;; hexit 1) s
           = {| events := events (body s) ++ [report error];
                host := host (body s);
                verdict := inl (Exited 1) |}).
Proof.
  intros Hbody. unfold htry.
  destruct (verdict (body s)) as [[error|code]|a] eqn:Hv.
  - right. now exists error.
  - elim (Hbody s code Hv).
  - left. now exists a.
Qed.
End NeverExits.

Lemma neverExits_liftConverter {W F A : Type} (m : M W A) :
  neverExits (@liftConverter W F A m).
Proof.
  intros s code. unfold liftConverter. cbn.
  now destruct (outcome (m (engineWorld s))).
Qed.

Lemma neverExits_fileCall {W F A : Type} event (op : F -> F * (string + A)) :
  neverExits (@fileCall W F A event op).
Proof.
  intros s code. unfold fileCall.
  now destruct (op (fileSystem s)) as [files' [cause|a]].
Qed.

(** The goals [neverExits m] for [m] built from the calls above. *)
Ltac never_exits :=
  repeat first
    [ apply neverExits_hret
    | apply neverExits_hthrow
    | apply neverExits_emit
    | apply neverExits_liftConverter
    | apply neverExits_fileCall
    | apply neverExits_hbind; [|intros ?] ].

Section CommandFacts.
Variable E : Engine.
Variable R : Repository (World E).
Variable FS : FileSystem.
Variable JSON_parse : string -> string + JsValue.
Variable JSON_stringify : JsValue -> string + string.
Variable decode : list byte -> string.

Local Abbreviation readJsonInput' := (readJsonInput E FS JSON_parse decode).
Local Abbreviation convertAndReport' := (convertAndReport E R FS).
Local Abbreviation json2bin' := (json2bin E R FS JSON_parse decode).
Local Abbreviation bin2json' := (bin2json E FS JSON_stringify).
Local Abbreviation main' := (main E R FS JSON_parse JSON_stringify decode).

Lemma writeBinary_neverExits options binary :
  neverExits (writeBinary E FS options binary).
Proof.
  unfold writeBinary.
  destruct (opt_output options) as [output|];
    [destruct (truthyString output)|];
    never_exits.
Qed.

(** The body of the [try] of [json2bin]. *)
Lemma convertAndReport_ends options jsonData s :
  verdict (convertAndReport' options jsonData s) = inr tt
  \/ verdict (convertAndReport' options jsonData s) = inl (Exited 1).
Proof.
  unfold convertAndReport.
  match goal with
  | |- context [htry ?body ?handler ?s] =>
      destruct (htry_report body
                  (fun error => ConsoleError ["Error during conversion:";
                                              errorMessage error]) s)
        as [([] & Hv & ->)|(error & Hv & ->)]
  end; [|now left|now right].
  apply neverExits_hbind; [never_exits|]. intros binary.
  apply neverExits_hbind; [apply writeBinary_neverExits|]. intros _.
  destruct (truthy (opt_test options)); never_exits.
Qed.

(** Reading standard input ends in the text or in the I/O error of the
    stream. *)
Lemma readStdin_ends s :
  (exists text, verdict (readStdin E FS decode s) = inr text)
  \/ (exists cause,
        verdict (readStdin E FS decode s) = inl (Thrown (IoError cause))
        /\ events (readStdin E FS decode s) = [ReadStdin]).
Proof.
  unfold readStdin, hbind, fileCall.
  destruct (Deno_stdin_chunks FS (fileSystem s)) as [files' [cause|chunks]];
    cbn.
  - right. now exists cause.
  - rewrite combineChunks_concat. cbn. left. eauto.
Qed.

Lemma readStdin_world s :
  engineWorld (host (readStdin E FS decode s)) = engineWorld s.
Proof.
  unfold readStdin, hbind, fileCall.
  destruct (Deno_stdin_chunks FS (fileSystem s)) as [files' [cause|chunks]];
    cbn; [reflexivity|].
  now rewrite combineChunks_concat.
Qed.

Lemma parseOrExit_run label text (s : HostOf E FS) :
  parseOrExit E FS JSON_parse label text s
  = match JSON_parse text with
    | inr jsonData => {| events := []; host := s; verdict := inr jsonData |}
    | inl message =>
        {| events := [ConsoleError [label; message]]; host := s;
           verdict := inl (Exited 1) |}
    end.
Proof. unfold parseOrExit. now destruct (JSON_parse text). Qed.

(** How reading the input of [json2bin] can end: with the value, with
    exit code 1 after a syntax error, or with the I/O error of the read. *)
Lemma readJsonInput_ends options s :
  (exists jsonData, verdict (readJsonInput' options s) = inr jsonData)
  \/ (verdict (readJsonInput' options s) = inl (Exited 1)
      /\ Forall (fun event => isOutputEvent event = false)
                (events (readJsonInput' options s)))
  \/ (exists cause,
        verdict (readJsonInput' options s) = inl (Thrown (IoError cause))
        /\ (events (readJsonInput' options s) = [ReadStdin]
            \/ exists input,
                 events (readJsonInput' options s) = [ReadTextFile input])).
Proof.
  assert (Hstdin :
      opt_input options = None
      \/ (exists input, opt_input options = Some input
                        /\ truthyString input = false) ->
      readJsonInput' options s
      = (jsonText <~ readStdin E FS decode ;;
         parseOrExit E FS JSON_parse "Error parsing JSON from stdin:"
           jsonText) s).
  { intros [Hnone|(input & Hsome & Hfalsy)]; unfold readJsonInput.
    - now rewrite Hnone.
    - now rewrite Hsome, Hfalsy. }
  assert (Hfrom_stdin :
    readJsonInput' options s
    = (jsonText <~ readStdin E FS decode ;;
       parseOrExit E FS JSON_parse "Error parsing JSON from stdin:"
         jsonText) s ->
    (exists jsonData, verdict (readJsonInput' options s) = inr jsonData)
    \/ (verdict (readJsonInput' options s) = inl (Exited 1)
        /\ Forall (fun event => isOutputEvent event = false)
                  (events (readJsonInput' options s)))
    \/ (exists cause,
          verdict (readJsonInput' options s) = inl (Thrown (IoError cause))
          /\ (events (readJsonInput' options s) = [ReadStdin]
              \/ exists input,
                   events (readJsonInput' options s)
                   = [ReadTextFile input]))).
  { intros Heq.
    destruct (readStdin_ends s) as [(text & Hv)|(cause & Hv & Hev)].
    - destruct (JSON_parse text) as [message|jsonData] eqn:Hparse.
      + right; left; split; rewrite Heq; unfold hbind; rewrite Hv;
          rewrite parseOrExit_run, Hparse; cbn; [reflexivity|].
        apply Forall_app. split; [|now repeat constructor].
        unfold readStdin, hbind, fileCall.
        destruct (Deno_stdin_chunks FS (fileSystem s))
          as [files' [c|chunks]]; cbn; [now repeat constructor|].
        rewrite combineChunks_concat. cbn. now repeat constructor.
      + left; exists jsonData. rewrite Heq. unfold hbind.
        rewrite Hv, parseOrExit_run, Hparse. reflexivity.
    - right; right; exists cause; split; rewrite Heq; unfold hbind; rewrite Hv;
        cbn; [reflexivity|now left]. }
  destruct (opt_input options) as [input|] eqn:Hinput;
    [destruct (truthyString input) eqn:Htruthy|].
  - unfold readJsonInput. 
    destruct (Deno_readTextFile FS input (fileSystem s))
      as [files' [cause|text]] eqn:Hread.
    + right; right; exists cause; split; unfold readJsonInput;
        rewrite Hinput, Htruthy; unfold hbind, fileCall; rewrite Hread; cbn;
        [reflexivity|right; now exists input].
    + destruct (JSON_parse text) as [message|jsonData] eqn:Hparse.
      * right; left; split; unfold readJsonInput;
          rewrite Hinput, Htruthy; unfold hbind, fileCall; rewrite Hread;
          cbn; rewrite parseOrExit_run, Hparse; cbn;
          [reflexivity|now repeat constructor].
      * left; exists jsonData. unfold readJsonInput.
        rewrite Hinput, Htruthy. unfold hbind, fileCall. rewrite Hread. cbn.
        now rewrite parseOrExit_run, Hparse.
  - apply Hfrom_stdin, Hstdin. right. now exists input.
  - apply Hfrom_stdin, Hstdin. now left.
Qed.
Lemma readJsonInput_world options s :
  engineWorld (host (readJsonInput' options s)) = engineWorld s.
Proof.
  assert (Hstdin :
    engineWorld
      (host ((jsonText <~ readStdin E FS decode ;;
              parseOrExit E FS JSON_parse "Error parsing JSON from stdin:"
                jsonText) s)) = engineWorld s).
  { unfold hbind.
    destruct (verdict (readStdin E FS decode s)) as [stop|text] eqn:Hv; cbn;
      [apply readStdin_world|].
    rewrite parseOrExit_run.
    destruct (JSON_parse text); cbn; apply readStdin_world. }
  unfold readJsonInput.
  destruct (opt_input options) as [input|];
    [destruct (truthyString input)|]; try exact Hstdin.
  unfold hbind, fileCall.
  destruct (Deno_readTextFile FS input (fileSystem s))
    as [files' [cause|text]]; cbn; [reflexivity|].
  rewrite parseOrExit_run. now destruct (JSON_parse text).
Qed.

(** [json2bin] ends by returning, by exit code 1, or by the uncaught
    I/O error of reading its input. *)
Lemma json2bin_ends options s :
  verdict (json2bin' options s) = inr tt
  \/ verdict (json2bin' options s) = inl (Exited 1)
  \/ exists cause,
       verdict (json2bin' options s) = inl (Thrown (IoError cause))
       /\ (events (json2bin' options s) = [ReadStdin]
           \/ exists input,
                events (json2bin' options s) = [ReadTextFile input]).
Proof.
  unfold json2bin, hbind.
  destruct (readJsonInput_ends options s)
    as [(jsonData & Hv)|[(Hv & _)|(cause & Hv & Hevents)]]; rewrite Hv; cbn.
  - destruct (convertAndReport_ends options jsonData
                (host (readJsonInput' options s))) as [H|H];
      [now left|right; now left].
  - right. now left.
  - right. right. now exists cause.
Qed.

Lemma bin2json_ends options s :
  verdict (bin2json' options s) = inr tt
  \/ verdict (bin2json' options s) = inl (Exited 1).
Proof.
  unfold bin2json.
  destruct (negb (truthyField (opt_input options))); [now right|].
  match goal with
  | |- context [htry ?body ?handler ?s] =>
      destruct (htry_report body
                  (fun error => ConsoleError ["Error during conversion:";
                                              errorMessage error]) s)
        as [([] & Hv & ->)|(error & Hv & ->)]
  end; [|now left|now right].
  apply neverExits_hbind; [unfold readAutomergeAsJson; never_exits|].
  intros jsonData.
  destruct (JSON_stringify jsonData) as [message|jsonText]; [never_exits|].
  destruct (opt_output options) as [output|];
    [destruct (truthyString output)|]; never_exits.
Qed.

(** X12. How the command line ends.  When help is asked for, or no
    command is given, [main] prints the help text and exits with code 0,
    touching nothing else, whatever the other arguments are.  Otherwise
    it returns normally, or exits with code 1, or (for [json2bin] only)
    lets the I/O error of reading its input escape uncaught before
    anything else happened; errors of the converter, of the engine and of
    writing the output never escape. *)
Theorem main_ends (args : list string) (s : HostOf E FS) :
  if truthy (opt_help (snd (parseArgs args)))
     || negb (truthyString (fst (parseArgs args)))
  then
    main' args s
    = {| events := [ConsoleLog [HELP_TEXT]]; host := s;
         verdict := inl (Exited 0) |}
  else
    verdict (main' args s) = inr tt
    \/ verdict (main' args s) = inl (Exited 1)
    \/ (fst (parseArgs args) = "json2bin"
        /\ exists cause,
             verdict (main' args s) = inl (Thrown (IoError cause))
             /\ (events (main' args s) = [ReadStdin]
                 \/ exists input,
                      events (main' args s) = [ReadTextFile input])).
Proof.
  unfold main. destruct (parseArgs args) as [command options]. cbn [fst snd].
  destruct (truthy (opt_help options) || negb (truthyString command));
    [reflexivity|].
  destruct (String.eqb command "json2bin") eqn:Hjson.
  - apply String.eqb_eq in Hjson.
    destruct (json2bin_ends options s) as [H|[H|H]]; auto.
  - destruct (String.eqb command "bin2json").
    + destruct (bin2json_ends options s) as [H|H]; auto.
    + right. now left.
Qed.

(** The compatibility test returns a boolean whatever the repository
    does, and makes calls on the repository only. *)
Lemma testRepoCompatibility_run binary w :
  (exists compatible,
     outcome (testRepoCompatibility E R binary w) = inr compatible)
  /\ forallb isTestEvent
       (map EngineEvent (calls (testRepoCompatibility E R binary w))) = true.
Proof.
  unfold testRepoCompatibility, tryCatch, bind, engineCall, ret. cbn.
  destruct (Repo_new R w) as [w1 [cause|repo]]; cbn; [eauto|].
  destruct (Repo_import R repo binary w1) as [w2 [cause|handle]]; cbn;
    [eauto|].
  destruct (DocHandle_isReady R handle w2) as [w3 [cause|ready]]; cbn; eauto.
Qed.

(** An event found in a run that cannot be an event of the kind [Hout]
    says it is. *)
Ltac sift H Hout :=
  repeat match type of H with
    | In _ (_ ++ _) => apply in_app_or in H; destruct H as [H|H]
    | In _ (map EngineEvent _) =>
        apply in_map_iff in H; destruct H as (? & <- & _); discriminate Hout
    | In _ (_ :: _) => destruct H as [<-|H]; [try discriminate Hout|]
    | _ = _ \/ _ => destruct H as [<-|H]; [try discriminate Hout|]
    | In _ [] => destruct H
    | False => destruct H
    end.

Lemma readStdin_run s :
  readStdin E FS decode s
  = let (files', r) := Deno_stdin_chunks FS (fileSystem s) in
    {| events := [ReadStdin];
       host := {| engineWorld := engineWorld s; fileSystem := files' |};
       verdict := match r with
                  | inl cause => inl (Thrown (IoError cause))
                  | inr chunks => inr (decode (List.concat chunks))
                  end |}.
Proof.
  unfold readStdin, hbind, fileCall.
  destruct (Deno_stdin_chunks FS (fileSystem s)) as [files' [cause|chunks]];
    cbn; [reflexivity|].
  rewrite combineChunks_concat. reflexivity.
Qed.

Lemma readJsonInput_quiet options s event :
  In event (events (readJsonInput' options s)) ->
  isOutputEvent event = false.
Proof.
  intros Hin. destruct (isOutputEvent event) eqn:Hout; [|reflexivity].
  exfalso.
  assert (Hstdin :
    In event
      (events ((jsonText <~ readStdin E FS decode ;;
                parseOrExit E FS JSON_parse "Error parsing JSON from stdin:"
                  jsonText) s)) -> False).
  { unfold hbind at 1. rewrite readStdin_run.
    destruct (Deno_stdin_chunks FS (fileSystem s))
      as [files' [cause|chunks]]; cbn.
    - intros H. sift H Hout.
    - rewrite parseOrExit_run.
      destruct (JSON_parse _); cbn; intros H; sift H Hout. }
  unfold readJsonInput in Hin.
  destruct (opt_input options) as [input|];
    [destruct (truthyString input)|]; try (exact (Hstdin Hin)).
  unfold hbind, fileCall in Hin.
  destruct (Deno_readTextFile FS input (fileSystem s))
    as [files' [cause|text]]; cbn in Hin.
  - sift Hin Hout.
  - rewrite parseOrExit_run in Hin.
    destruct (JSON_parse text); cbn in Hin; sift Hin Hout.
Qed.

Lemma convertAndReport_output options jsonData s event :
  In event (events (convertAndReport' options jsonData s)) ->
  isOutputEvent event = true ->
  exists binary,
    outcome (jsonToAutomerge E jsonData
               {| actor := opt_actor options;
                  validateJson := opt_validate options |} (engineWorld s))
    = inr binary
    /\ event = outputOf options binary.
Proof.
  intros Hin Hout.
  unfold convertAndReport, htry, hbind, liftConverter in Hin. cbn in Hin.
  destruct (outcome (jsonToAutomerge E jsonData _ (engineWorld s)))
    as [e|binary]; cbn in Hin; [sift Hin Hout|].
  exists binary. split; [reflexivity|].
  unfold writeBinary, outputOf, hbind, fileCall, emit in *.
  destruct (opt_output options) as [output|];
    [destruct (truthyString output)|]; cbn in Hin.
  - destruct (Deno_writeFile FS output binary (fileSystem s))
      as [files' [cause|[]]]; cbn in Hin.
    + sift Hin Hout. reflexivity.
    + destruct (truthy (opt_test options)); cbn in Hin.
      * destruct (outcome (testRepoCompatibility E R binary _));
          cbn in Hin; sift Hin Hout; reflexivity.
      * sift Hin Hout; reflexivity.
  - destruct (Deno_stdout_write FS binary (fileSystem s))
      as [files' [cause|written]]; cbn in Hin.
    + sift Hin Hout. reflexivity.
    + destruct (truthy (opt_test options)); cbn in Hin.
      * destruct (outcome (testRepoCompatibility E R binary _));
          cbn in Hin; sift Hin Hout; reflexivity.
      * sift Hin Hout; reflexivity.
  - destruct (Deno_stdout_write FS binary (fileSystem s))
      as [files' [cause|written]]; cbn in Hin.
    + sift Hin Hout. reflexivity.
    + destruct (truthy (opt_test options)); cbn in Hin.
      * destruct (outcome (testRepoCompatibility E R binary _));
          cbn in Hin; sift Hin Hout; reflexivity.
      * sift Hin Hout; reflexivity.
Qed.

(** X13. Whatever [json2bin] writes, to a file or to standard output, is
    the result of the conversion: the input was read and parsed, and
    [jsonToAutomerge] returned these very bytes for the parsed value under
    the actor and the validation switch of the command line.  So a
    failure to read, to parse or to convert leaves no output behind. *)
Theorem json2bin_writes_the_conversion (options : CliOptions)
    (s : HostOf E FS) (event : Event) :
  In event (events (json2bin' options s)) ->
  isOutputEvent event = true ->
  exists jsonData binary,
    verdict (readJsonInput' options s) = inr jsonData
    /\ outcome (jsonToAutomerge E jsonData
                  {| actor := opt_actor options;
                     validateJson := opt_validate options |} (engineWorld s))
       = inr binary
    /\ event = outputOf options binary.
Proof.
  intros Hin Hout. unfold json2bin, hbind in Hin.
  destruct (verdict (readJsonInput' options s)) as [stop|jsonData] eqn:Hv;
    cbn in Hin.
  - rewrite (readJsonInput_quiet _ _ _ Hin) in Hout. discriminate.
  - apply in_app_or in Hin. destruct Hin as [Hin|Hin].
    + rewrite (readJsonInput_quiet _ _ _ Hin) in Hout. discriminate.
    + destruct (convertAndReport_output _ _ _ _ Hin Hout)
        as (binary & Hconv & ->).
      rewrite readJsonInput_world in Hconv.
      now exists jsonData, binary.
Qed.

Lemma events_then_report {A : Type} (a b c d e : list A) :
  a ++ b ++ c ++ d ++ e = (a ++ b ++ c ++ []) ++ d ++ e.
Proof. now rewrite app_nil_r, <- !app_assoc. Qed.

(** X14. The test switch only reports.  With [-t] the command ends the
    same way and leaves the same files as without it; what it adds, if
    anything, comes last: calls on the repository and one line on standard
    error.  A failing compatibility test does not change the exit code
    and does not undo the output. *)
Theorem test_switch_only_reports (options : CliOptions) (s : HostOf E FS) :
  let tested := json2bin' options s in
  let plain := json2bin' (withoutTest options) s in
  verdict tested = verdict plain
  /\ fileSystem (host tested) = fileSystem (host plain)
  /\ exists report,
       events tested = events plain ++ report
       /\ forallb isTestEvent report = true.
Proof.
  cbn zeta. unfold json2bin, hbind.
  change (readJsonInput' (withoutTest options) s)
    with (readJsonInput' options s).
  destruct (verdict (readJsonInput' options s)) as [stop|jsonData]; cbn.
  { repeat split. exists []. now rewrite app_nil_r. }
  set (s1 := host (readJsonInput' options s)).
  unfold convertAndReport, htry, hbind, liftConverter. cbn.
  destruct (outcome (jsonToAutomerge E jsonData _ (engineWorld s1)))
    as [e|binary]; cbn.
  { repeat split. exists []. now rewrite app_nil_r. }
  change (writeBinary E FS (withoutTest options) binary)
    with (writeBinary E FS options binary).
  match goal with
  | |- context [writeBinary E FS options binary ?s2] =>
      destruct (verdict (writeBinary E FS options binary s2))
        as [[error|code]|[]] eqn:Hwrite; cbn
  end.
  - repeat split. exists []. now rewrite app_nil_r.
  - repeat split. exists []. now rewrite app_nil_r.
  - destruct (truthy (opt_test options)); cbn.
    + match goal with
      | |- context [testRepoCompatibility E R binary ?w] =>
          destruct (testRepoCompatibility_run binary w)
            as [(compatible & Hrun) Hcalls]; rewrite Hrun; cbn
      end.
      repeat split.
      eexists. split.
      * apply events_then_report.
      * rewrite forallb_app, Hcalls. reflexivity.
    + repeat split. exists []. now rewrite !app_nil_r.
Qed.

(** X15. Whatever [bin2json] prints, to a file or to standard output, is
    the document stored in its input file: the input path was given, the
    file was read, the engine loaded its bytes under the actor of the
    command line, and the text is [JSON.stringify] of the loaded
    document.  So a missing input, an unreadable file or bytes the engine
    refuses leave no output behind. *)
Theorem bin2json_prints_the_document (options : CliOptions)
    (s : HostOf E FS) (event : Event) :
  In event (events (bin2json' options s)) ->
  isPrintEvent event = true ->
  exists input files' binary w' doc jsonText,
    opt_input options = Some input
    /\ Deno_readFile FS input (fileSystem s) = (files', inr binary)
    /\ A_load E binary (opt_actor options) (engineWorld s) = (w', inr doc)
    /\ JSON_stringify (materialize E doc) = inr jsonText
    /\ event = printOf options jsonText.
Proof.
  intros Hin Hout. unfold bin2json in Hin.
  destruct (opt_input options) as [input|] eqn:Hinput; cbn in Hin;
    [|sift Hin Hout].
  destruct (truthyString input); cbn in Hin; [|sift Hin Hout].
  unfold htry, hbind, readAutomergeAsJson, hbind, fileCall, liftConverter
    in Hin.
  cbn in Hin.
  destruct (Deno_readFile FS input (fileSystem s))
    as [files' [cause|binary]] eqn:Hread; cbn in Hin;
    [sift Hin Hout|].
  destruct (A_load E binary (opt_actor options) (engineWorld s))
    as [w' [cause|doc]] eqn:Hload.
  - rewrite (automergeToJson_refused E binary
               {| actor := opt_actor options; validateJson := None |}
               _ _ _ Hload) in Hin.
    cbn in Hin. sift Hin Hout.
  - rewrite (automergeToJson_loaded E binary
               {| actor := opt_actor options; validateJson := None |}
               _ _ _ Hload) in Hin.
    cbn in Hin.
    destruct (JSON_stringify (materialize E doc)) as [message|jsonText]
      eqn:Htext; cbn in Hin; [sift Hin Hout|].
    exists input, files', binary, w', doc, jsonText.
    repeat (split; [reflexivity || assumption|]).
    unfold printOf.
    destruct (opt_output options) as [output|];
      [destruct (truthyString output)|]; cbn in Hin.
    + destruct (Deno_writeTextFile FS output jsonText files')
        as [files'' [cause|[]]]; cbn in Hin; sift Hin Hout;
        reflexivity.
    + sift Hin Hout; reflexivity.
    + sift Hin Hout; reflexivity.
Qed.

(** What a [json2bin] that returned has left in the output file. *)
Lemma json2bin_wrote options path json s :
  opt_output options = Some path ->
  truthyString path = true ->
  verdict (readJsonInput' options s) = inr json ->
  verdict (json2bin' options s) = inr tt ->
  exists binary files,
    outcome (jsonToAutomerge E json
               {| actor := opt_actor options;
                  validateJson := opt_validate options |} (engineWorld s))
    = inr binary
    /\ Deno_writeFile FS path binary files
       = (fileSystem (host (json2bin' options s)), inr tt).
Proof.
  intros Houtput Hpath Hread.
  unfold json2bin, hbind. rewrite Hread. cbn.
  unfold convertAndReport, htry, hbind, liftConverter. cbn.
  rewrite readJsonInput_world.
  destruct (outcome (jsonToAutomerge E json _ (engineWorld s)))
    as [e|binary]; cbn; [discriminate|].
  unfold writeBinary. rewrite Houtput, Hpath.
  unfold hbind, fileCall, emit. cbn.
  destruct (Deno_writeFile FS path binary
              (fileSystem (host (readJsonInput' options s))))
    as [files' [cause|[]]] eqn:Hwrite; cbn; [discriminate|].
  intros _. exists binary, (fileSystem (host (readJsonInput' options s))).
  split; [reflexivity|]. rewrite Hwrite. f_equal.
  destruct (truthy (opt_test options)); cbn; [|reflexivity].
  match goal with
  | |- context [testRepoCompatibility E R binary ?w] =>
      destruct (testRepoCompatibility_run binary w)
        as [(compatible & Hrun) _]; rewrite Hrun
  end.
  reflexivity.
Qed.

(** What [bin2json] does with a file the engine loads. *)
Lemma bin2json_loaded options path s files' binary w' doc :
  opt_input options = Some path ->
  truthyString path = true ->
  Deno_readFile FS path (fileSystem s) = (files', inr binary) ->
  A_load E binary (opt_actor options) (engineWorld s) = (w', inr doc) ->
  match JSON_stringify (materialize E doc) with
  | inr jsonText => In (printOf options jsonText)
                       (events (bin2json' options s))
  | inl message =>
      verdict (bin2json' options s) = inl (Exited 1)
      /\ forall event, In event (events (bin2json' options s)) ->
                       isPrintEvent event = false
  end.
Proof.
  intros Hinput Hpath Hread Hload.
  unfold bin2json, truthyField. rewrite Hinput, Hpath. cbn.
  unfold htry, hbind, readAutomergeAsJson, hbind, fileCall, liftConverter.
  cbn. rewrite Hread. cbn.
  rewrite (automergeToJson_loaded E binary
             {| actor := opt_actor options; validateJson := None |}
             _ _ _ Hload).
  cbn.
  destruct (JSON_stringify (materialize E doc)) as [message|jsonText]; cbn.
  - split; [reflexivity|].
    intros event [<-|[<-|[<-|[]]]]; reflexivity.
  - unfold printOf.
    destruct (opt_output options) as [output|];
      [destruct (truthyString output)|]; cbn.
    + destruct (Deno_writeTextFile FS output jsonText files')
        as [files'' [cause|[]]]; cbn; auto.
    + auto.
    + auto.
Qed.

(** X16. Round trip on the command line.  When [json2bin] has read a
    JSON value, written it to a file and returned, [bin2json] run on that
    file under the same actor loads a structurally equal value and hands
    it to [JSON.stringify]; the text, if there is one, is what it prints.
    This holds against an engine that meets its contract and a file
    system that reads back what it wrote, with or without the test and
    validation switches. *)
Theorem cli_roundtrip (forward backward : CliOptions) (path : string)
    (json : JsValue) (s : HostOf E FS) :
  saveLoadInverse E ->
  seededWith E ->
  readsBackWrites FS ->
  opt_output forward = Some path ->
  truthyString path = true ->
  opt_input backward = Some path ->
  opt_actor backward = opt_actor forward ->
  verdict (readJsonInput' forward s) = inr json ->
  IsJsonValue json ->
  verdict (json2bin' forward s) = inr tt ->
  exists restored,
    StructEq restored json
    /\ match JSON_stringify restored with
       | inr jsonText =>
           In (printOf backward jsonText)
              (events (bin2json' backward (host (json2bin' forward s))))
       | inl message =>
           verdict (bin2json' backward (host (json2bin' forward s)))
           = inl (Exited 1)
           /\ forall event,
                In event
                   (events (bin2json' backward (host (json2bin' forward s))))
                -> isPrintEvent event = false
       end.
Proof.
  intros Hinverse Hseeded Hfiles Houtput Hpath Hinput Hactor Hread Hjson
    Hreturned.
  destruct (json2bin_wrote _ _ _ _ Houtput Hpath Hread Hreturned)
    as (binary & files & Hconv & Hwrite).
  destruct (jsonToAutomerge_ok _ _ _ _ _ Hconv)
    as (wa & doc & wb & Hfrom & Hsave).
  destruct (Hfiles _ _ _ _ Hwrite) as (files' & Hback).
  destruct (Hinverse _ _ _ _ _ _ _ _ Hfrom Hsave
              (engineWorld (host (json2bin' forward s))))
    as (w' & doc' & Hload & Hsame).
  cbn [actor] in Hload. rewrite <- Hactor in Hload.
  exists (materialize E doc'). split.
  - apply structEq_trans with (materialize E doc); [exact Hsame|].
    exact (Hseeded _ _ _ _ _ Hjson Hfrom).
  - exact (bin2json_loaded _ _ _ _ _ _ _ Hinput Hpath Hback Hload).
Qed.
End CommandFacts.

(** [json2bin -i list.txt -o list.automerge -t] on the small engine: the
    bytes written to [list.automerge] are the conversion of the checklist
    in [list.txt]. *)
Lemma json2bin_writes_the_conversion_witness :
  exists jsonData binary,
    verdict (readJsonInput Mini.engine SimpleFiles.fs Letters.parse
               Letters.decode Letters.forward Letters.sampleHost)
    = inr jsonData
    /\ outcome (jsonToAutomerge Mini.engine jsonData
                  {| actor := opt_actor Letters.forward;
                     validateJson := opt_validate Letters.forward |}
                  (engineWorld Letters.sampleHost))
       = inr binary
    /\ WriteFile "list.automerge"
         [x85; x6f; x4a; x83; x01; x00; x01; x00; x01]
       = outputOf Letters.forward binary.
Proof.
  apply (json2bin_writes_the_conversion Mini.engine Mini.repository
           SimpleFiles.fs Letters.parse Letters.decode Letters.forward
           Letters.sampleHost).
  - vm_compute. right. right. right. left. reflexivity.
  - reflexivity.
Defined.

(** [bin2json -i list.automerge] after the conversion above prints
    [tft]. *)
Lemma bin2json_prints_the_document_witness :
  exists input files' binary w' doc jsonText,
    opt_input Letters.backward = Some input
    /\ Deno_readFile SimpleFiles.fs input
         (fileSystem
            (host (json2bin Mini.engine Mini.repository SimpleFiles.fs
                     Letters.parse Letters.decode Letters.forward
                     Letters.sampleHost)))
       = (files', inr binary)
    /\ A_load Mini.engine binary (opt_actor Letters.backward)
         (engineWorld
            (host (json2bin Mini.engine Mini.repository SimpleFiles.fs
                     Letters.parse Letters.decode Letters.forward
                     Letters.sampleHost)))
       = (w', inr doc)
    /\ Letters.stringify (materialize Mini.engine doc) = inr jsonText
    /\ ConsoleLog ["tft"] = printOf Letters.backward jsonText.
Proof.
  apply (bin2json_prints_the_document Mini.engine SimpleFiles.fs
           Letters.stringify Letters.backward).
  - vm_compute. right. right. left. reflexivity.
  - reflexivity.
Defined.

(** The two commands above, one after the other. *)
Lemma cli_roundtrip_witness :
  exists restored,
    StructEq restored Mini.sampleJson
    /\ match Letters.stringify restored with
       | inr jsonText =>
           In (printOf Letters.backward jsonText)
              (events
                 (bin2json Mini.engine SimpleFiles.fs Letters.stringify
                    Letters.backward
                    (host (json2bin Mini.engine Mini.repository
                             SimpleFiles.fs Letters.parse Letters.decode
                             Letters.forward Letters.sampleHost))))
       | inl message =>
           verdict
             (bin2json Mini.engine SimpleFiles.fs Letters.stringify
                Letters.backward
                (host (json2bin Mini.engine Mini.repository
                         SimpleFiles.fs Letters.parse Letters.decode
                         Letters.forward Letters.sampleHost)))
           = inl (Exited 1)
           /\ forall event,
                In event
                   (events
                      (bin2json Mini.engine SimpleFiles.fs
                         Letters.stringify Letters.backward
                         (host (json2bin Mini.engine Mini.repository
                                  SimpleFiles.fs Letters.parse
                                  Letters.decode Letters.forward
                                  Letters.sampleHost))))
                -> isPrintEvent event = false
       end.
Proof.
  apply (cli_roundtrip Mini.engine Mini.repository SimpleFiles.fs
           Letters.parse Letters.stringify Letters.decode Letters.forward
           Letters.backward "list.automerge" Mini.sampleJson
           Letters.sampleHost
           MiniFacts.engine_saveLoadInverse MiniFacts.engine_seededWith
           SimpleFilesFacts.fs_readsBackWrites);
    try reflexivity.
  exact MiniFacts.sampleJson_isJson.
Defined.

(** ** The repository test and the test utilities *)

(** X17. [testRepoCompatibility] never throws, and it answers [true] in
    one case only: the repository was created, the import returned a
    handle, and the handle reports ready.  Every failure on the way is
    answered [false].  It calls the repository only, never the encoder or
    the decoder. *)
Theorem testRepoCompatibility_answer (E : Engine)
    (R : Repository (World E)) (binary : list byte) (w : World E) :
  let run := testRepoCompatibility E R binary w in
  (exists compatible, outcome run = inr compatible)
  /\ (outcome run = inr true <->
      exists w1 repo w2 handle w3,
        Repo_new R w = (w1, inr repo)
        /\ Repo_import R repo binary w1 = (w2, inr handle)
        /\ DocHandle_isReady R handle w2 = (w3, inr true))
  /\ (exists n, calls run = firstn n [CallRepoNew; CallImport binary;
                                      CallIsReady]).
Proof.
  cbn zeta.
  unfold testRepoCompatibility, tryCatch, bind, engineCall, ret. cbn.
  destruct (Repo_new R w) as [w1 [cause|repo]] eqn:Hnew; cbn.
  { split; [eauto|]. split; [|now exists 1].
    split; [discriminate|].
    intros (? & ? & ? & ? & ? & [=] & _). }
  destruct (Repo_import R repo binary w1) as [w2 [cause|handle]] eqn:Himport;
    cbn.
  { split; [eauto|]. split; [|now exists 2].
    split; [discriminate|].
    intros (? & ? & ? & ? & ? & [= <- <-] & Himport' & _).
    rewrite Himport in Himport'. discriminate. }
  destruct (DocHandle_isReady R handle w2) as [w3 [cause|ready]] eqn:Hready;
    cbn.
  { split; [eauto|]. split; [|now exists 3].
    split; [discriminate|].
    intros (? & ? & ? & ? & ? & [= <- <-] & Himport' & Hready').
    rewrite Himport in Himport'. injection Himport' as <- <-.
    rewrite Hready in Hready'. discriminate. }
  split; [eauto|]. split; [|now exists 3].
  split.
  - intros [= ->]. now exists w1, repo, w2, handle, w3.
  - intros (? & ? & ? & ? & ? & [= <- <-] & Himport' & Hready').
    rewrite Himport in Himport'. injection Himport' as <- <-.
    rewrite Hready in Hready'. now injection Hready' as _ ->.
Qed.

Section TestUtilsFacts.
Variable E : Engine.
Variable F : Type.
Variable notEqual : bool -> bool -> string.

Local Abbreviation assertValidBinary' := (assertValidBinary E F notEqual).

(** X18. [assertValidBinary] passes exactly for the byte arrays that are
    not empty and that the engine loads when no actor is given.  For the
    empty array it throws the assertion error without calling the engine;
    for bytes the engine refuses it throws an error whose message is
    [Invalid binary format: ] followed by the cause. *)
Theorem assertValidBinary_passes_iff (binary : list byte)
    (s : HostState (World E) F) :
  (verdict (assertValidBinary' binary s) = inr tt <->
   binary <> []
   /\ exists w' doc, A_load E binary None (engineWorld s) = (w', inr doc))
  /\ (binary = [] ->
      assertValidBinary' binary s
      = {| events := []; host := s;
           verdict := inl (Thrown (AssertionError (notEqual false true))) |})
  /\ (forall w' cause,
        binary <> [] ->
        A_load E binary None (engineWorld s) = (w', inl cause) ->
        verdict (assertValidBinary' binary s)
        = inl (Thrown (GenericError
                         (String.append "Invalid binary format: " cause)))).
Proof.
  unfold assertValidBinary, assertEquals, htry, hbind, liftConverter.
  destruct binary as [|b rest]; cbn.
  - split; [|split].
    + split; [discriminate|]. now intros [Hne _].
    + reflexivity.
    + now intros w' cause Hne.
  - destruct (A_load E (b :: rest) None (engineWorld s))
      as [w' [cause|doc]] eqn:Hload.
    + rewrite (automergeToJson_refused E (b :: rest) emptyOptions
                 _ _ _ Hload).
      cbn. split; [|split].
      * split; [discriminate|]. now intros (_ & ? & ? & [=]).
      * discriminate.
      * now intros ? ? _ [= _ ->].
    + rewrite (automergeToJson_loaded E (b :: rest) emptyOptions
                 _ _ _ Hload).
      cbn. split; [|split].
      * split; [|reflexivity]. intros _. split; [discriminate|eauto].
      * discriminate.
      * now intros ? ? _ [=].
Qed.

(** X19. Against an engine whose save and load are inverse and whose
    saved documents are not empty, [assertValidBinary] passes for every
    byte array [jsonToAutomerge] returns when no actor is given, whatever
    the validation switch and whatever happened to the engine in
    between. *)
Theorem assertValidBinary_accepts_conversions (json : JsValue)
    (validate : option bool) (w : World E) (binary : list byte)
    (s : HostState (World E) F) :
  saveLoadInverse E ->
  saveNonEmpty E ->
  outcome (jsonToAutomerge E json
             {| actor := None; validateJson := validate |} w) = inr binary ->
  verdict (assertValidBinary' binary s) = inr tt.
Proof.
  intros Hinverse Hnonempty Hconv.
  destruct (jsonToAutomerge_ok _ _ _ _ _ Hconv)
    as (wa & doc & wb & Hfrom & Hsave).
  destruct (Hinverse _ _ _ _ _ _ _ _ Hfrom Hsave (engineWorld s))
    as (w' & doc' & Hload & _).
  pose proof (Hnonempty _ _ _ _ Hsave) as Hne.
  unfold assertValidBinary, assertEquals, htry, hbind, liftConverter.
  destruct binary as [|b rest]; [now elim Hne|]. cbn.
  now rewrite (automergeToJson_loaded E (b :: rest) emptyOptions
                 _ _ _ Hload).
Qed.
End TestUtilsFacts.

(** The bytes of [{ flags: [true, false, true] }], converted with no
    actor in world 7, pass on the small engine in world 0. *)
Lemma assertValidBinary_accepts_conversions_witness :
  verdict (assertValidBinary Mini.engine (list (string * list byte))
             (fun _ _ => "Values are not equal.")
             [x85; x6f; x4a; x83; x01; x07; x01; x00; x01]
             (SimpleFiles.emptyHost 0))
  = inr tt.
Proof.
  apply (assertValidBinary_accepts_conversions Mini.engine
           (list (string * list byte)) (fun _ _ => "Values are not equal.")
           Mini.sampleJson (Some true) 7).
  - exact MiniFacts.engine_saveLoadInverse.
  - exact MiniFacts.engine_saveNonEmpty.
  - reflexivity.
Defined.
